(** * MoonTVPlus: the Emby play proxy and the Emby CMS proxy

    A shallow embedding of the two route handlers

      - [src/app/api/emby/play/[token]/[filename]/route.ts]  (module [Play])
      - the Emby CMS proxy route, [/api/emby/cms-proxy/{token}] (module [CmsProxy])

    and the properties of their specification.

    JavaScript strings are modelled as byte strings holding UTF-8, integers
    ([Date.now()], HTTP statuses, season and episode numbers) as [Z], values of
    type [string | null | undefined] as [option string], plain objects used as
    header maps as [gmap string string]. *)

From Stdlib Require Import ZArith String Ascii List Lia Permutation Sorted.
From stdpp Require Import base decidable option list strings gmap pretty.

Local Open Scope Z_scope.
Local Open Scope string_scope.
Local Open Scope list_scope.

(** ** JavaScript helpers *)

Module Js.

(** Truthiness of a [string | null | undefined]: only a non-empty string. *)
Definition truthy (o : option string) : bool :=
  match o with
  | Some s => negb (bool_decide (s = ""))
  | None => false
  end.

(** [a || b] on [string | null | undefined]. *)
Definition or (a b : option string) : option string :=
  if truthy a then a else b.

(** [a || 'lit'], whose result is always a string. *)
Definition or_str (a : option string) (b : string) : string :=
  match a with
  | Some s => if bool_decide (s = "") then b else s
  | None => b
  end.

(** The string held by a value that was tested truthy. *)
Definition str (o : option string) : string := default "" o.

(** [n || 0] on [number | undefined]. *)
Definition or_zero (n : option Z) : Z := default 0 n.

(** [`${n}`] and [n.toString()] for an integer. *)
Definition Number_toString (n : Z) : string := pretty n.

(** [`${n}`] for a [number | undefined]. *)
Definition template_num (n : option Z) : string :=
  match n with
  | Some z => Number_toString z
  | None => "undefined"
  end.

(** [`${s}`] for a [string | null] (the result of [Headers.get]). *)
Definition template_str (s : option string) : string :=
  match s with
  | Some v => v
  | None => "null"
  end.

(** [t] is a prefix of [s]. *)
Fixpoint startsWith (s t : string) {struct t} : bool :=
  match t, s with
  | EmptyString, _ => true
  | String c t', String d s' => bool_decide (c = d) && startsWith s' t'
  | String _ _, EmptyString => false
  end.

(** [s.includes(t)]. *)
Fixpoint includes (s t : string) : bool :=
  startsWith s t ||
  match s with
  | EmptyString => false
  | String _ s' => includes s' t
  end.

(** [encodeURIComponent]: the unreserved characters
    [A-Z a-z 0-9 - _ . ! ~ * ' ( )] are kept, every other byte of the UTF-8
    encoding becomes [%XX] with upper-case hexadecimal digits. *)
Definition unreserved (c : ascii) : bool :=
  let n := N_of_ascii c in
  ((65 <=? n) && (n <=? 90) || (97 <=? n) && (n <=? 122) ||
   (48 <=? n) && (n <=? 57))%N ||
  bool_decide (c ∈ ["-"; "_"; "."; "!"; "~"; "*"; "'"; "("; ")"]%char).

Definition hex_digit (n : N) : ascii :=
  (if n <? 10 then ascii_of_N (48 + n) else ascii_of_N (55 + n))%N.

Definition percent_encode (c : ascii) : string :=
  let n := N_of_ascii c in
  String "%" (String (hex_digit (n / 16)) (String (hex_digit (n mod 16)) "")).

Fixpoint encodeURIComponent (s : string) : string :=
  match s with
  | EmptyString => ""
  | String c s' =>
      (if unreserved c then String c "" else percent_encode c)
        +:+ encodeURIComponent s'
  end.

(** [xs.join(sep)] on an array of strings. *)
Fixpoint join (sep : string) (xs : list string) : string :=
  match xs with
  | [] => ""
  | [x] => x
  | x :: xs' => x +:+ sep +:+ join sep xs'
  end.

(** [Array.prototype.sort(cmp)].  The language requires the sort to be stable;
    for a comparator that is consistent on the elements the result is then the
    unique stable arrangement, which this insertion sort computes: an element
    is placed before the first later element it does not compare greater
    than. *)
Section Sort.
Context {A : Type} (cmp : A → A → Z).

Fixpoint sort_insert (x : A) (l : list A) : list A :=
  match l with
  | [] => [x]
  | y :: l' => if bool_decide (cmp x y <= 0) then x :: y :: l'
               else y :: sort_insert x l'
  end.

Definition sort (l : list A) : list A := foldr sort_insert [] l.
End Sort.

End Js.

(** The message of a thrown [Error]. *)
Definition Exn := string.

(** ** The site configuration ([@/lib/config]) *)

Record EmbyConfigT := {
  Enabled : bool;
  ServerURL : option string;
  ApiKey : option string;
  AuthToken : option string;
  UserId : option string;
  Username : option string;
  Password : option string;
}.

Record AdminConfig := { EmbyConfig : option EmbyConfigT }.

(** ** The play proxy: [GET /api/emby/play/{token}/{filename}?itemId=xxx] *)

Module Play.

(** The module-level cache slot holds a value of this type or [null]. *)
Record CachedEmbyConfig := {
  serverURL : string;
  apiKey : string;
  timestamp : Z;
}.

Definition CACHE_TTL : Z := 5 * 60 * 1000.

(** What the handler asks of the outside: a read of the configuration store
    and the upstream request. *)
Inductive IOEvent :=
  | EvGetConfig
  | EvFetch (url : string) (headers : gmap string string).

(** The module state (the [let cachedEmbyConfig]) and the trace of the
    external calls made so far. *)
Record State := {
  cachedEmbyConfig : option CachedEmbyConfig;
  io : list IOEvent;
}.

(** The upstream [Response]; [up_headers] is keyed by lower-case name. *)
Record UpstreamResponse := {
  up_status : Z;
  up_statusText : string;
  up_headers : gmap string string;
  up_body : string;
}.

Definition ok (r : UpstreamResponse) : bool :=
  bool_decide (200 <= up_status r) && bool_decide (up_status r <= 299).

Record AuthInfo := { username : option string }.

(** The inbound request: the query of [request.url] and the headers, keyed by
    lower-case name. *)
Record Request := {
  searchParams : gmap string string;
  req_headers : gmap string string;
}.

Record Params := { token : string; filename : string }.

(** What the surroundings answer during one request: the clock, the
    configuration store, the upstream server, the environment and the cookie
    decoder of [@/lib/auth]. *)
Record World := {
  Date_now : Z;
  getConfig : Exn + AdminConfig;
  fetch : string → gmap string string → Exn + UpstreamResponse;
  TVBOX_SUBSCRIBE_TOKEN : option string;
  getAuthInfoFromCookie : Request → option AuthInfo;
}.

(** State and exceptions. *)
Definition M (A : Type) : Type := State → (Exn + A) * State.

Definition ret {A} (a : A) : M A := λ s, (inr a, s).
Definition throw {A} (e : Exn) : M A := λ s, (inl e, s).
Definition bind {A B} (m : M A) (k : A → M B) : M B :=
  λ s, match m s with
       | (inr a, s') => k a s'
       | (inl e, s') => (inl e, s')
       end.
Definition try_catch {A} (m : M A) (h : Exn → M A) : M A :=
  λ s, match m s with
       | (inr a, s') => (inr a, s')
       | (inl e, s') => h e s'
       end.

Notation "x <- m ;; k" := (bind m (λ x, k))
  (at level 100, m at next level, right associativity).
Notation "m ;;; k" := (bind m (λ _, k))
  (at level 100, right associativity).

Definition read_cache : M (option CachedEmbyConfig) :=
  λ s, (inr (cachedEmbyConfig s), s).
Definition write_cache (c : CachedEmbyConfig) : M unit :=
  λ s, (inr tt, {| cachedEmbyConfig := Some c; io := io s |}).
Definition log (e : IOEvent) : M unit :=
  λ s, (inr tt, {| cachedEmbyConfig := cachedEmbyConfig s; io := io s ++ [e] |}).
Definition lift {A} (r : Exn + A) : M A := λ s, (r, s).

(** [await getConfig()] *)
Definition await_getConfig (w : World) : M AdminConfig :=
  log EvGetConfig ;;; lift (getConfig w).

(** [await fetch(url, { headers })] *)
Definition await_fetch (w : World) (url : string) (headers : gmap string string)
  : M UpstreamResponse :=
  log (EvFetch url headers) ;;; lift (fetch w url headers).

(** Lines 30-54 of [getCachedEmbyConfig]: what follows the early return. *)
Definition reloadEmbyConfig (w : World) (now : Z) : M CachedEmbyConfig :=
  config <- await_getConfig w ;;
  match EmbyConfig config with
  | None => throw "Emby 未配置或未启用"
  | Some embyConfig =>
      if negb (Enabled embyConfig) || negb (Js.truthy (ServerURL embyConfig))
      then throw "Emby 未配置或未启用"
      else
        let apiKey := Js.or (ApiKey embyConfig) (AuthToken embyConfig) in
        if negb (Js.truthy apiKey) then throw "Emby 认证信息缺失"
        else
          let fresh := {| serverURL := Js.str (ServerURL embyConfig);
                          apiKey := Js.str apiKey;
                          timestamp := now |} in
          write_cache fresh ;;; ret fresh
  end.

Definition getCachedEmbyConfig (w : World) : M CachedEmbyConfig :=
  let now := Date_now w in
  cached <- read_cache ;;
  match cached with
  | Some c =>
      if bool_decide (now - timestamp c < CACHE_TTL) then ret c
      else reloadEmbyConfig w now
  | None => reloadEmbyConfig w now
  end.

(** The body of the HTTP response: [NextResponse.json] of an object with
    [error] and maybe [details], or the relayed upstream body. *)
Inductive Body :=
  | JsonError (error : string) (details : option string)
  | Stream (content : string).

Record Response := {
  status : Z;
  headers : gmap string string;
  body : Body;
}.

Definition json (error : string) (details : option string) (st : Z) : Response :=
  {| status := st;
     headers := {[ "content-type" := "application/json" ]};
     body := JsonError error details |}.

(** [hasValidToken] and [hasValidAuth], as tested by [!]. *)
Definition hasValidToken (w : World) (params : Params) : bool :=
  Js.truthy (TVBOX_SUBSCRIBE_TOKEN w) &&
  bool_decide (Some (token params) = TVBOX_SUBSCRIBE_TOKEN w).

Definition hasValidAuth (w : World) (request : Request) : bool :=
  match getAuthInfoFromCookie w request with
  | Some authInfo => Js.truthy (username authInfo)
  | None => false
  end.

Definition embyStreamUrl (embyConfig : CachedEmbyConfig) (itemId : string) : string :=
  serverURL embyConfig +:+ "/Videos/" +:+ itemId
    +:+ "/stream?Static=true&api_key=" +:+ apiKey embyConfig.

(** The [requestHeaders] object: empty, then [Range] when the inbound header
    is truthy. *)
Definition requestHeaders (request : Request) : gmap string string :=
  let rangeHeader := req_headers request !! "range" in
  if Js.truthy rangeHeader then <[ "Range" := Js.str rangeHeader ]> ∅ else ∅.

(** The double quote character. *)
Definition dquote : ascii := "034"%char.

Definition copy_header (from : gmap string string) (name out : string)
    (to : gmap string string) : gmap string string :=
  let value := from !! name in
  if Js.truthy value then <[ out := Js.str value ]> to else to.

Definition responseHeaders (videoResponse : UpstreamResponse)
    (params : Params) : gmap string string :=
  let contentType :=
    Js.or_str (up_headers videoResponse !! "content-type") "video/mp4" in
  let h0 : gmap string string := <[ "Content-Type" := contentType ]> ∅ in
  let h1 := copy_header (up_headers videoResponse) "content-length" "Content-Length" h0 in
  let h2 := copy_header (up_headers videoResponse) "accept-ranges" "Accept-Ranges" h1 in
  let h3 := copy_header (up_headers videoResponse) "content-range" "Content-Range" h2 in
  <[ "Content-Disposition" :=
       "inline; filename=" +:+ String dquote (filename params +:+ String dquote "") ]> h3.

(** The handler.  The [console.error] calls are left out. *)
Definition GET (w : World) (request : Request) (params : Params) : M Response :=
  try_catch
    (if negb (hasValidToken w params) && negb (hasValidAuth w request)
     then ret (json "未授权" None 401)
     else
       let itemId := searchParams request !! "itemId" in
       if negb (Js.truthy itemId) then ret (json "缺少 itemId 参数" None 400)
       else
         embyConfig <- getCachedEmbyConfig w ;;
         videoResponse <-
           await_fetch w (embyStreamUrl embyConfig (Js.str itemId))
                       (requestHeaders request) ;;
         if negb (ok videoResponse) then ret (json "获取视频流失败" None 500)
         else
           ret {| status := up_status videoResponse;
                  headers := responseHeaders videoResponse params;
                  body := Stream (up_body videoResponse) |})
    (λ error, ret (json "播放失败" (Some error) 500)).

End Play.

(** ** The CMS proxy: [GET /api/emby/cms-proxy/{token}?ac=videolist&...] *)

Module CmsProxy.

(** Items and episodes as [@/lib/emby.client] returns them. *)
Record Item := {
  Id : string;
  Name : string;
  Type_ : string;
  ProductionYear : option Z;
  Overview : option string;
}.

Record Episode := {
  ep_Id : string;
  ParentIndexNumber : option Z;
  IndexNumber : option Z;
}.

Record GetItemsParams := {
  searchTerm : option string;
  IncludeItemTypes : string;
  Recursive : bool;
  Fields : string;
  Limit : Z;
}.

(** The [EmbyClient] of [@/lib/emby.client], which is not part of these
    sources: each method is an outcome per argument, a thrown error or a
    value.  A handler calls each method at most once, so this covers a client
    that keeps state. *)
Record EmbyClient := {
  authenticate : string → string → Exn + string;
  getItems : GetItemsParams → Exn + list Item;
  getItem : string → Exn + Item;
  getEpisodes : string → Exn + list Episode;
  getImageUrl : string → string → string;
}.

Record Request := {
  searchParams : gmap string string;
  req_headers : gmap string string;
}.

Record Params := { token : string }.

Record World := {
  getConfig : Exn + AdminConfig;
  newEmbyClient : EmbyConfigT → EmbyClient;
  TVBOX_SUBSCRIBE_TOKEN : option string;
  SITE_BASE : option string;
}.

(** One entry of [list]; [vod_play_url] and [vod_play_from] only in a detail
    answer. *)
Record VodRecord := {
  vod_id : string;
  vod_name : string;
  vod_pic : string;
  vod_remarks : string;
  vod_year : string;
  vod_content : string;
  type_name : string;
  vod_play_url : option string;
  vod_play_from : option string;
}.

(** The two shapes of JSON the route answers with: [{ code, msg }] and the
    seven-field list answer. *)
Inductive Body :=
  | CodeMsg (code : Z) (msg : string)
  | VodList (code : Z) (msg : string) (page pagecount limit total : Z)
            (list : list VodRecord).

Record Response := {
  status : Z;
  body : Body;
}.

(** [NextResponse.json(body)] and [NextResponse.json(body, { status })]. *)
Definition json (b : Body) : Response := {| status := 200; body := b |}.
Definition json_status (b : Body) (st : Z) : Response := {| status := st; body := b |}.

(** The answer with [page: 1, pagecount: 0, limit: 0, total: 0, list: []]. *)
Definition empty_list (code : Z) (msg : string) : Response :=
  json (VodList code msg 1 0 0 0 []).

(** Exceptions only: the route keeps no state of its own. *)
Definition bind {A B} (m : Exn + A) (k : A → Exn + B) : Exn + B :=
  match m with
  | inr a => k a
  | inl e => inl e
  end.

Notation "x <- m ;; k" := (bind m (λ x, k))
  (at level 100, m at next level, right associativity).

Definition remarks (item : Item) : string :=
  if bool_decide (Type_ item = "Movie") then "电影" else "剧集".
Definition typeName (item : Item) : string :=
  if bool_decide (Type_ item = "Movie") then "电影" else "电视剧".
Definition year (item : Item) : string :=
  Js.or_str (Js.Number_toString <$> ProductionYear item) "".

Definition handleSearch (client : EmbyClient) (query : string) : Exn + Response :=
  result <- getItems client
              {| searchTerm := if Js.truthy (Some query) then Some query else None;
                 IncludeItemTypes := "Movie,Series";
                 Recursive := true;
                 Fields := "Overview,ProductionYear";
                 Limit := 100 |} ;;
  let list :=
    map (λ item,
           {| vod_id := Id item;
              vod_name := Name item;
              vod_pic := getImageUrl client (Id item) "Primary";
              vod_remarks := remarks item;
              vod_year := year item;
              vod_content := Js.or_str (Overview item) "";
              type_name := typeName item;
              vod_play_url := None;
              vod_play_from := None |}) result in
  inr (json (VodList 1 "数据列表" 1 1
               (Z.of_nat (length list)) (Z.of_nat (length list)) list)).

(** [baseUrl] of [handleDetail]. *)
Definition baseUrl (w : World) (request : Request) : string :=
  let host := Js.or (req_headers request !! "host")
                    (req_headers request !! "x-forwarded-host") in
  let local :=
    match host with
    | Some h => Js.includes h "localhost" || Js.includes h "127.0.0.1"
    | None => false
    end in
  let proto := Js.or_str (req_headers request !! "x-forwarded-proto")
                         (if local then "http" else "https") in
  Js.or_str (SITE_BASE w) (proto +:+ "://" +:+ Js.template_str host).

Definition proxyUrl (base token itemId : string) : string :=
  base +:+ "/api/emby/play/" +:+ Js.encodeURIComponent token
       +:+ "/video.mp4?itemId=" +:+ itemId.

(** The comparator passed to [sort]. *)
Definition compareEpisodes (a b : Episode) : Z :=
  if bool_decide (ParentIndexNumber a ≠ ParentIndexNumber b)
  then Js.or_zero (ParentIndexNumber a) - Js.or_zero (ParentIndexNumber b)
  else Js.or_zero (IndexNumber a) - Js.or_zero (IndexNumber b).

(** The function passed to [map]. *)
Definition playEntry (base token : string) (ep : Episode) : string :=
  let title := "第" +:+ Js.template_num (IndexNumber ep) +:+ "集" in
  title +:+ "$" +:+ proxyUrl base token (ep_Id ep).

Definition seriesPlayUrl (base token : string) (allEpisodes : list Episode) : string :=
  let episodes := map (playEntry base token) (Js.sort compareEpisodes allEpisodes) in
  Js.join "#" episodes.

Definition handleDetail (w : World) (client : EmbyClient) (itemId token : string)
    (request : Request) : Exn + Response :=
  item <- getItem client itemId ;;
  let base := baseUrl w request in
  vodPlayUrl <-
    (if bool_decide (Type_ item = "Movie") then
       inr ("正片" +:+ "$" +:+ proxyUrl base token (Id item))
     else if bool_decide (Type_ item = "Series") then
       allEpisodes <- getEpisodes client itemId ;;
       inr (seriesPlayUrl base token allEpisodes)
     else inr "") ;;
  inr (json (VodList 1 "数据列表" 1 1 1 1
               [ {| vod_id := Id item;
                    vod_name := Name item;
                    vod_pic := getImageUrl client (Id item) "Primary";
                    vod_remarks := remarks item;
                    vod_year := year item;
                    vod_content := Js.or_str (Overview item) "";
                    type_name := typeName item;
                    vod_play_url := Some vodPlayUrl;
                    vod_play_from := Some "Emby" |} ])).

Definition handleDetailBySearch (w : World) (client : EmbyClient)
    (query token : string) (request : Request) : Exn + Response :=
  result <- getItems client
              {| searchTerm := Some query;
                 IncludeItemTypes := "Movie,Series";
                 Recursive := true;
                 Fields := "Overview,ProductionYear";
                 Limit := 1 |} ;;
  match result with
  | [] => inr (empty_list 0 "未找到该视频")
  | first :: _ => handleDetail w client (Id first) token request
  end.

(** The [UserId] after the optional authentication step.  The source stores
    it into [embyConfig.UserId], an object the client also holds; nothing later
    in the handler reads the configuration again, and what the client makes of
    it is part of the client's answers. *)
Definition resolveUserId (client : EmbyClient) (embyConfig : EmbyConfigT)
  : Exn + option string :=
  if negb (Js.truthy (UserId embyConfig)) && Js.truthy (Username embyConfig)
     && Js.truthy (Password embyConfig)
  then
    userId <- authenticate client (Js.str (Username embyConfig))
                                  (Js.str (Password embyConfig)) ;;
    inr (Some userId)
  else inr (UserId embyConfig).

Definition supported (ac : option string) : bool :=
  bool_decide (ac = Some "videolist") || bool_decide (ac = Some "list")
  || bool_decide (ac = Some "detail").

(** The handler.  The [try] block is [attempt]; the [console.error] call of
    the [catch] is left out. *)
Definition GET (w : World) (request : Request) (params : Params) : Response :=
  let ac := searchParams request !! "ac" in
  let wd := searchParams request !! "wd" in
  let ids := searchParams request !! "ids" in
  if negb (supported ac) then json_status (CodeMsg 400 "不支持的操作") 400
  else
    let requestToken := token params in
    let subscribeToken := TVBOX_SUBSCRIBE_TOKEN w in
    if negb (Js.truthy subscribeToken)
       || bool_decide (Some requestToken ≠ subscribeToken)
    then empty_list 401 "无效的访问token"
    else
      let attempt : Exn + Response :=
        config <- getConfig w ;;
        match EmbyConfig config with
        | None => inr (empty_list 0 "Emby 未配置或未启用")
        | Some embyConfig =>
            if negb (Enabled embyConfig) || negb (Js.truthy (ServerURL embyConfig))
            then inr (empty_list 0 "Emby 未配置或未启用")
            else
              let client := newEmbyClient w embyConfig in
              userId <- resolveUserId client embyConfig ;;
              if negb (Js.truthy userId) then inr (empty_list 0 "Emby 认证失败")
              else
                if Js.truthy wd then
                  if bool_decide (ac = Some "detail")
                  then handleDetailBySearch w client (Js.str wd) requestToken request
                  else handleSearch client (Js.str wd)
                else if Js.truthy ids || bool_decide (ac = Some "detail") then
                  if negb (Js.truthy ids) then inr (empty_list 0 "缺少视频ID")
                  else handleDetail w client (Js.str ids) requestToken request
                else handleSearch client ""
        end in
      match attempt with
      | inr response => response
      | inl error => empty_list 500 error
      end.

End CmsProxy.

(** ** Vocabulary of the properties *)

Module PlaySpec.
Import Play.

(** A call finds the slot empty or its entry expired. *)
Definition cache_miss (w : World) (s : State) : Prop :=
  cachedEmbyConfig s = None
  ∨ ∃ c, cachedEmbyConfig s = Some c ∧ 300000 <= Date_now w - timestamp c.

(** The configuration the store answers with cannot be used: no Emby section,
    disabled, no server URL, or neither credential. *)
Definition unusable (config : AdminConfig) : Prop :=
  EmbyConfig config = None
  ∨ ∃ e, EmbyConfig config = Some e
         ∧ (Enabled e = false ∨ Js.truthy (ServerURL e) = false
            ∨ (Js.truthy (ApiKey e) = false ∧ Js.truthy (AuthToken e) = false)).

Definition logged (s : State) (e : IOEvent) : State :=
  {| cachedEmbyConfig := cachedEmbyConfig s; io := io s ++ [e] |}.

(** [h] carries no header but, at most, [Range]. *)
Definition only_Range (h : gmap string string) : Prop :=
  ∀ name, is_Some (h !! name) → name = "Range".

End PlaySpec.

(** ** Sample data *)

Module Sample.

Definition embyConfig : EmbyConfigT :=
  {| Enabled := true;
     ServerURL := Some "http://emby.lan:8096";
     ApiKey := Some "k-123";
     AuthToken := Some "t-456";
     UserId := Some "u1";
     Username := None;
     Password := None |}.

Definition store : AdminConfig := {| EmbyConfig := Some embyConfig |}.

Definition disabled : AdminConfig :=
  {| EmbyConfig := Some {| Enabled := false;
                           ServerURL := Some "http://emby.lan:8096";
                           ApiKey := Some "k-123";
                           AuthToken := None;
                           UserId := None;
                           Username := None;
                           Password := None |} |}.

(** An upstream that serves partial content when asked for a range. *)
Definition upstream (url : string) (headers : gmap string string)
  : Exn + Play.UpstreamResponse :=
  inr {| Play.up_status := if bool_decide (is_Some (headers !! "Range")) then 206 else 200;
         Play.up_statusText := "OK";
         Play.up_headers := {[ "content-type" := "video/x-matroska" ]};
         Play.up_body := "..." |}.

(** A session decoder that knows one cookie. *)
Definition session (request : Play.Request) : option Play.AuthInfo :=
  if bool_decide (Play.req_headers request !! "cookie" = Some "user_auth=alice")
  then Some {| Play.username := Some "alice" |}
  else None.

Definition play_world (now : Z) (config : AdminConfig) (secret : option string)
  : Play.World :=
  {| Play.Date_now := now;
     Play.getConfig := inr config;
     Play.fetch := upstream;
     Play.TVBOX_SUBSCRIBE_TOKEN := secret;
     Play.getAuthInfoFromCookie := session |}.

Definition cold : Play.State := {| Play.cachedEmbyConfig := None; Play.io := [] |}.

Definition entry : Play.CachedEmbyConfig :=
  {| Play.serverURL := "http://emby.lan:8096";
     Play.apiKey := "k-123";
     Play.timestamp := 1700000000000 |}.

Definition warm : Play.State := {| Play.cachedEmbyConfig := Some entry; Play.io := [] |}.

Definition play_request (query headers : list (string * string)) : Play.Request :=
  {| Play.searchParams := list_to_map query; Play.req_headers := list_to_map headers |}.

Definition play_params (token : string) : Play.Params :=
  {| Play.token := token; Play.filename := "video.mp4" |}.

End Sample.

Module CmsSpec.
Import CmsProxy.

(** The body has the list fields, and the length of [list] is both [limit]
    and [total]. *)
Definition list_matches_limit_total (b : Body) : Prop :=
  ∃ code msg page pagecount list,
    b = VodList code msg page pagecount
                (Z.of_nat (length list)) (Z.of_nat (length list)) list.

(** The sort key the specification gives an episode: season then episode
    number, an absent number counting as 0. *)
Definition key_le (a b : Episode) : Prop :=
  Js.or_zero (ParentIndexNumber a) < Js.or_zero (ParentIndexNumber b)
  ∨ (Js.or_zero (ParentIndexNumber a) = Js.or_zero (ParentIndexNumber b)
     ∧ Js.or_zero (IndexNumber a) <= Js.or_zero (IndexNumber b)).

(** Two episodes whose season numbers count as equal have the same season
    number: not one absent and the other 0. *)
Definition seasons_agree (a b : Episode) : Prop :=
  Js.or_zero (ParentIndexNumber a) = Js.or_zero (ParentIndexNumber b) →
  ParentIndexNumber a = ParentIndexNumber b.

End CmsSpec.

Module CmsSample.
Import CmsProxy.

Definition movie : Item :=
  {| Id := "m1"; Name := "Heat"; Type_ := "Movie";
     ProductionYear := Some 1995; Overview := None |}.

Definition series : Item :=
  {| Id := "s1"; Name := "Dark"; Type_ := "Series";
     ProductionYear := Some 2017; Overview := Some "Winden." |}.

Definition episode (id : string) (season number : option Z) : Episode :=
  {| ep_Id := id; ParentIndexNumber := season; IndexNumber := number |}.

Definition client (episodes : list Episode) : EmbyClient :=
  {| authenticate := λ _ _, inl "authentication failed";
     getItems := λ _, inr [movie; series];
     getItem := λ id, if bool_decide (id = "m1") then inr movie
                      else if bool_decide (id = "s1") then inr series
                      else inl "item not found";
     getEpisodes := λ _, inr episodes;
     getImageUrl := λ id kind,
       "http://emby.lan:8096/Items/" +:+ id +:+ "/Images/" +:+ kind |}.

Definition world (secret : option string) (episodes : list Episode) : World :=
  {| getConfig := inr Sample.store;
     newEmbyClient := λ _, client episodes;
     TVBOX_SUBSCRIBE_TOKEN := secret;
     SITE_BASE := None |}.

Definition request (query : list (string * string)) : Request :=
  {| searchParams := list_to_map query;
     req_headers := {[ "host" := "tv.example.org" ]} |}.

Definition params (token : string) : Params := {| token := token |}.

(** The episodes of the specification's example, in the order given there. *)
Definition three : list Episode :=
  [episode "e12" (Some 1) (Some 2); episode "e11" (Some 1) (Some 1);
   episode "e21" (Some 2) (Some 1)].

(** A special without season number listed before one of season 0. *)
Definition specials : list Episode :=
  [episode "x2" None (Some 2); episode "x1" (Some 0) (Some 1)].

End CmsSample.

(** ** Further vocabulary *)

Module PlayView.
Import Play.

(** A filled slot holds a server URL and a credential that are not empty. *)
Definition slot_usable (s : State) : Prop :=
  ∀ c, cachedEmbyConfig s = Some c → serverURL c ≠ "" ∧ apiKey c ≠ "".

(** The header names a relayed answer can carry. *)
Definition relayed : list string :=
  ["Content-Type"; "Content-Length"; "Accept-Ranges"; "Content-Range";
   "Content-Disposition"].

(** The request passes the guard of the handler. *)
Definition authorized (w : World) (request : Request) (params : Params) : bool :=
  hasValidToken w params || hasValidAuth w request.

(** The state after the upstream request for [itemId] was made from [s1]. *)
Definition fetched (s1 : State) (c : CachedEmbyConfig) (request : Request) : State :=
  PlaySpec.logged s1
    (EvFetch (embyStreamUrl c (Js.str (searchParams request !! "itemId")))
             (requestHeaders request)).

End PlayView.

Module PlaySample.

(** A world like [Sample.play_world] whose upstream answers as given. *)
Definition world_with (now : Z) (config : AdminConfig) (secret : option string)
    (answer : Exn + Play.UpstreamResponse) : Play.World :=
  {| Play.Date_now := now;
     Play.getConfig := inr config;
     Play.fetch := λ _ _, answer;
     Play.TVBOX_SUBSCRIBE_TOKEN := secret;
     Play.getAuthInfoFromCookie := Sample.session |}.

(** An upstream answer with the given status and headers. *)
Definition answer (st : Z) (headers : list (string * string)) : Play.UpstreamResponse :=
  {| Play.up_status := st;
     Play.up_statusText := "";
     Play.up_headers := list_to_map headers;
     Play.up_body := "..." |}.

End PlaySample.

Module CmsView.
Import CmsProxy.

(** The [code] of an answer and its [list], empty when the body has none. *)
Definition code (b : Body) : Z :=
  match b with
  | CodeMsg c _ => c
  | VodList c _ _ _ _ _ _ => c
  end.

Definition records (b : Body) : list VodRecord :=
  match b with
  | CodeMsg _ _ => []
  | VodList _ _ _ _ _ _ l => l
  end.

(** The token of the request is the configured, non-empty secret. *)
Definition accepted (w : World) (params : Params) : Prop :=
  Js.truthy (TVBOX_SUBSCRIBE_TOKEN w) = true
  ∧ Some (token params) = TVBOX_SUBSCRIBE_TOKEN w.

(** The store answers with an enabled Emby configuration that has a server
    URL. *)
Definition configured (w : World) (embyConfig : EmbyConfigT) : Prop :=
  ∃ config, getConfig w = inr config
            ∧ EmbyConfig config = Some embyConfig
            ∧ Enabled embyConfig = true
            ∧ Js.truthy (ServerURL embyConfig) = true.

(** An answer with the list fields: HTTP 200, page 1, and either code 1 on a
    single page or one of the codes 0, 401 and 500 with no page and no
    record. *)
Definition list_answer (r : Response) : Prop :=
  status r = 200
  ∧ ∃ c msg pagecount l,
      body r = VodList c msg 1 pagecount (Z.of_nat (length l)) (Z.of_nat (length l)) l
      ∧ ((c = 1 ∧ pagecount = 1)
         ∨ ((c = 0 ∨ c = 401 ∨ c = 500) ∧ pagecount = 0 ∧ l = [])).

(** The request with the [ids] parameter removed. *)
Definition without_ids (request : Request) : Request :=
  {| searchParams := delete "ids" (searchParams request);
     req_headers := req_headers request |}.

(** The characters of a string. *)
Fixpoint chars (s : string) : list ascii :=
  match s with
  | EmptyString => []
  | String c s' => c :: chars s'
  end.

End CmsView.

Module CmsSample2.
Import CmsProxy.

(** A store whose Emby configuration has no user id but a login. *)
Definition login_store : AdminConfig :=
  {| EmbyConfig := Some {| Enabled := true;
                           ServerURL := Some "http://emby.lan:8096";
                           ApiKey := None;
                           AuthToken := None;
                           UserId := None;
                           Username := Some "admin";
                           Password := Some "hunter2" |} |}.

(** A store without user id and without login. *)
Definition anonymous_store : AdminConfig :=
  {| EmbyConfig := Some {| Enabled := true;
                           ServerURL := Some "http://emby.lan:8096";
                           ApiKey := Some "k-123";
                           AuthToken := None;
                           UserId := None;
                           Username := None;
                           Password := None |} |}.

Definition world_with (store : Exn + AdminConfig) (episodes : Exn + list Episode)
    (found : list Item) : World :=
  {| getConfig := store;
     newEmbyClient := λ _,
       {| authenticate := λ _ _, inl "authentication failed";
          getItems := λ _, inr found;
          getItem := λ id, if bool_decide (id = "m1") then inr CmsSample.movie
                           else if bool_decide (id = "s1") then inr CmsSample.series
                           else if bool_decide (id = "b1") then
                             inr {| Id := "b1"; Name := "Box"; Type_ := "BoxSet";
                                    ProductionYear := None; Overview := None |}
                           else inl "item not found";
          getEpisodes := λ _, episodes;
          getImageUrl := λ id kind,
            "http://emby.lan:8096/Items/" +:+ id +:+ "/Images/" +:+ kind |};
     TVBOX_SUBSCRIBE_TOKEN := Some "s3cret";
     SITE_BASE := None |}.

(** The sample world with [SITE_BASE] as given. *)
Definition world_at (site : option string) : World :=
  {| getConfig := inr Sample.store;
     newEmbyClient := λ _, CmsSample.client [];
     TVBOX_SUBSCRIBE_TOKEN := Some "s3cret";
     SITE_BASE := site |}.

Definition request_with (query headers : list (string * string)) : Request :=
  {| searchParams := list_to_map query; req_headers := list_to_map headers |}.

End CmsSample2.

Module CmsReady.
Import CmsProxy CmsView.

(** Token accepted, configuration usable, user id configured: the request
    reaches the routing without authentication. *)
Definition ready (w : World) (params : Params) (embyConfig : EmbyConfigT) : Prop :=
  accepted w params ∧ configured w embyConfig
  ∧ Js.truthy (UserId embyConfig) = true.

(** What the handler answers when [outcome] is what the [try] block gave. *)
Definition answer (outcome : Exn + Response) : Response :=
  match outcome with
  | inr response => response
  | inl error => empty_list 500 error
  end.

End CmsReady.

(** * Properties *)

(** ** Strings *)

Section StringFacts.

Lemma startsWith_app (a b : string) : Js.startsWith (a +:+ b) a = true.
Proof.
  induction a as [|c a IH]; simpl.
  - reflexivity.
  - rewrite bool_decide_eq_true_2 by reflexivity. exact IH.
Qed.

Lemma includes_startsWith (s t : string) :
  Js.startsWith s t = true → Js.includes s t = true.
Proof. intros H. destruct s; simpl in *; rewrite H; reflexivity. Qed.

Lemma includes_app_l (a b : string) : Js.includes (a +:+ b) a = true.
Proof. apply includes_startsWith, startsWith_app. Qed.

Lemma startsWith_refl (a : string) : Js.startsWith a a = true.
Proof.
  induction a as [|c a IH]; simpl; [reflexivity|].
  rewrite bool_decide_eq_true_2 by reflexivity. exact IH.
Qed.

Lemma includes_app_r (a b : string) : Js.includes (a +:+ b) b = true.
Proof.
  induction a as [|c a IH]; simpl.
  - apply includes_startsWith, startsWith_refl.
  - rewrite IH. apply orb_true_r.
Qed.

Lemma includes_app_skip (a s t : string) :
  Js.includes s t = true → Js.includes (a +:+ s) t = true.
Proof.
  intros H. induction a as [|c a IH]; simpl; [exact H|].
  rewrite IH. apply orb_true_r.
Qed.

Lemma truthy_Some (o : option string) :
  Js.truthy o = true → ∃ v, o = Some v ∧ v ≠ "" ∧ Js.str o = v.
Proof.
  destruct o as [v|]; simpl; [|discriminate].
  case_bool_decide; [discriminate|]. eauto.
Qed.

End StringFacts.

(** ** The configuration cache *)

Section ConfigCache.
Import Play PlaySpec.

Lemma hit (w : World) (s : State) (c : CachedEmbyConfig) :
  cachedEmbyConfig s = Some c →
  Date_now w - timestamp c < 300000 →
  getCachedEmbyConfig w s = (inr c, s).
Proof.
  intros Hc Hfresh. unfold getCachedEmbyConfig, bind, read_cache.
  rewrite Hc. rewrite bool_decide_eq_true_2; [reflexivity|].
  unfold CACHE_TTL. lia.
Qed.

Lemma miss (w : World) (s : State) :
  cache_miss w s →
  getCachedEmbyConfig w s = reloadEmbyConfig w (Date_now w) s.
Proof.
  intros [Hc | (c & Hc & Hold)]; unfold getCachedEmbyConfig, bind, read_cache;
    rewrite Hc; [reflexivity|].
  rewrite bool_decide_eq_false_2; [reflexivity|]. unfold CACHE_TTL. lia.
Qed.

Lemma reload_throws (w : World) (now : Z) (s : State) (e : Exn) :
  getConfig w = inl e →
  reloadEmbyConfig w now s = (inl e, logged s EvGetConfig).
Proof.
  intros H. unfold reloadEmbyConfig, await_getConfig, bind, log, lift.
  rewrite H. reflexivity.
Qed.

Lemma reload_unusable (w : World) (now : Z) (s : State) (config : AdminConfig) :
  getConfig w = inr config →
  unusable config →
  ∃ e, reloadEmbyConfig w now s = (inl e, logged s EvGetConfig).
Proof.
  intros H Hbad. unfold reloadEmbyConfig, await_getConfig, bind, log, lift.
  rewrite H. simpl.
  destruct Hbad as [-> | (e & -> & Hbad)]; [eexists; reflexivity|].
  destruct (Enabled e) eqn:En; simpl; [|eexists; reflexivity].
  destruct (Js.truthy (ServerURL e)) eqn:Su; simpl; [|eexists; reflexivity].
  destruct Hbad as [?|[?|[Hk Ht]]]; try discriminate.
  unfold Js.or. rewrite Hk, Ht. simpl. eexists; reflexivity.
Qed.

Lemma reload_usable (w : World) (now : Z) (s : State) (config : AdminConfig)
    (e : EmbyConfigT) :
  getConfig w = inr config →
  EmbyConfig config = Some e →
  Enabled e = true →
  Js.truthy (ServerURL e) = true →
  Js.truthy (Js.or (ApiKey e) (AuthToken e)) = true →
  let fresh := {| serverURL := Js.str (ServerURL e);
                  apiKey := Js.str (Js.or (ApiKey e) (AuthToken e));
                  timestamp := now |} in
  reloadEmbyConfig w now s =
    (inr fresh, {| cachedEmbyConfig := Some fresh; io := io s ++ [EvGetConfig] |}).
Proof.
  intros H He En Su Cr. unfold reloadEmbyConfig, await_getConfig, bind, log, lift.
  rewrite H. simpl. rewrite He, En, Su. simpl. rewrite Cr. reflexivity.
Qed.

(** A reload either fails and leaves the slot as it was, or succeeds and
    fills it with the entry it returns, stamped with the time of the call; in
    both cases the store was read once and nothing else was done. *)
Lemma reload_outcome (w : World) (now : Z) (s : State) :
  (∃ e, reloadEmbyConfig w now s = (inl e, logged s EvGetConfig))
  ∨ (∃ config e,
       getConfig w = inr config ∧ EmbyConfig config = Some e ∧
       let fresh := {| serverURL := Js.str (ServerURL e);
                       apiKey := Js.str (Js.or (ApiKey e) (AuthToken e));
                       timestamp := now |} in
       reloadEmbyConfig w now s =
         (inr fresh, {| cachedEmbyConfig := Some fresh; io := io s ++ [EvGetConfig] |})).
Proof.
  destruct (getConfig w) as [err|config] eqn:H.
  { left. exists err. by apply reload_throws. }
  destruct (EmbyConfig config) as [e|] eqn:He.
  2:{ left. eapply reload_unusable; [done|]. by left. }
  destruct (Enabled e) eqn:En.
  2:{ left. eapply reload_unusable; [done|]. right. eauto. }
  destruct (Js.truthy (ServerURL e)) eqn:Su.
  2:{ left. eapply reload_unusable; [done|]. right. eauto. }
  destruct (Js.truthy (Js.or (ApiKey e) (AuthToken e))) eqn:Cr.
  - right. exists config, e. split; [done|]. split; [done|].
    by apply (reload_usable w now s config e).
  - left. eapply reload_unusable; [done|]. right. exists e. split; [done|].
    right. right. unfold Js.or in Cr.
    destruct (Js.truthy (ApiKey e)) eqn:Hk; [congruence|]. done.
Qed.

End ConfigCache.

Section ConfigCacheClaims.
Import Play PlaySpec.

(** After a successful load, a call made less than 300000 ms later gets the
    very same entry and reads nothing, whatever the store holds by then. *)
Lemma second_call_within_ttl (w1 w2 : World) (s s1 : State) (c : CachedEmbyConfig) :
  cache_miss w1 s →
  getCachedEmbyConfig w1 s = (inr c, s1) →
  Date_now w2 - Date_now w1 < 300000 →
  getCachedEmbyConfig w2 s1 = (inr c, s1).
Proof.
  intros Hmiss Hload Hsoon. rewrite (miss _ _ Hmiss) in Hload.
  destruct (reload_outcome w1 (Date_now w1) s) as [[e He] | (config & e & _ & _ & Hok)].
  - rewrite He in Hload. discriminate.
  - simpl in Hok. rewrite Hok in Hload. injection Hload as <- <-.
    apply hit; [reflexivity | simpl; lia].
Qed.

(** C1. A call that finds an entry younger than 300000 ms returns that entry
    and leaves the state, trace of external calls included, as it was.  A call
    that finds no entry, or one whose age has reached 300000 ms, reads the
    configuration store exactly once and does nothing else outside; when it
    succeeds, the slot then holds the returned entry, which carries the
    server URL and credential of the store and the time of the call. *)
Theorem config_cache_get (w : World) (s : State) :
  (∀ c, cachedEmbyConfig s = Some c →
        Date_now w - timestamp c < 300000 →
        getCachedEmbyConfig w s = (inr c, s))
  ∧ (cache_miss w s →
     ∃ r s', getCachedEmbyConfig w s = (r, s')
       ∧ io s' = io s ++ [EvGetConfig]
       ∧ ∀ c', r = inr c' →
           cachedEmbyConfig s' = Some c'
           ∧ timestamp c' = Date_now w
           ∧ ∃ config e,
               getConfig w = inr config ∧ EmbyConfig config = Some e
               ∧ serverURL c' = Js.str (ServerURL e)
               ∧ apiKey c' = Js.str (Js.or (ApiKey e) (AuthToken e))).
Proof.
  split.
  - intros c Hc Hfresh. by apply hit.
  - intros Hmiss. rewrite (miss _ _ Hmiss).
    destruct (reload_outcome w (Date_now w) s) as [[e He] | (config & e & Hg & Hc & Hok)].
    + eexists _, _. split; [exact He|]. split; [reflexivity|]. intros c' [=].
    + simpl in Hok. eexists _, _. split; [exact Hok|]. split; [reflexivity|].
      intros c' [= <-]. simpl. split; [reflexivity|]. split; [reflexivity|].
      exists config, e. auto.
Qed.

Lemma config_cache_get_witness :
  getCachedEmbyConfig (Sample.play_world 1700000299999 Sample.disabled None) Sample.warm
    = (inr Sample.entry, Sample.warm)
  ∧ ∃ r s', getCachedEmbyConfig (Sample.play_world 1700000300000 Sample.store None) Sample.warm
              = (r, s')
      ∧ io s' = [EvGetConfig]
      ∧ ∀ c', r = inr c' →
          cachedEmbyConfig s' = Some c' ∧ timestamp c' = 1700000300000
          ∧ ∃ config e,
              getConfig (Sample.play_world 1700000300000 Sample.store None) = inr config
              ∧ EmbyConfig config = Some e
              ∧ serverURL c' = Js.str (ServerURL e)
              ∧ apiKey c' = Js.str (Js.or (ApiKey e) (AuthToken e)).
Proof.
  split.
  - apply (config_cache_get (Sample.play_world 1700000299999 Sample.disabled None) Sample.warm);
      [reflexivity | simpl; lia].
  - apply (config_cache_get (Sample.play_world 1700000300000 Sample.store None) Sample.warm).
    right. exists Sample.entry. split; [reflexivity | simpl; lia].
Defined.

(** C4. When a call has to reload and the store answers with a configuration
    that is absent, disabled, without server URL or without any credential,
    the call fails and the slot is what it was before: no failure is stored.
    The next call, at any time not earlier, reads the store again. *)
Theorem failed_reload_not_cached (w : World) (s : State) (config : AdminConfig) :
  cache_miss w s →
  getConfig w = inr config →
  unusable config →
  ∃ e s', getCachedEmbyConfig w s = (inl e, s')
    ∧ cachedEmbyConfig s' = cachedEmbyConfig s
    ∧ ∀ w', Date_now w <= Date_now w' →
        ∃ r s'', getCachedEmbyConfig w' s' = (r, s'')
                 ∧ io s'' = io s' ++ [EvGetConfig].
Proof.
  intros Hmiss Hg Hbad. rewrite (miss _ _ Hmiss).
  destruct (reload_unusable w (Date_now w) s config Hg Hbad) as [e He].
  exists e, (logged s EvGetConfig). split; [exact He|]. split; [reflexivity|].
  intros w' Hlater.
  assert (cache_miss w' (logged s EvGetConfig)) as Hmiss'.
  { destruct Hmiss as [Hn | (c & Hc & Hold)]; [by left|].
    right. exists c. split; [exact Hc | lia]. }
  rewrite (miss _ _ Hmiss').
  destruct (reload_outcome w' (Date_now w') (logged s EvGetConfig))
    as [[e' He'] | (config' & e' & _ & _ & Hok)].
  - eexists _, _. split; [exact He' | reflexivity].
  - simpl in Hok. eexists _, _. split; [exact Hok | reflexivity].
Qed.

Lemma failed_reload_not_cached_witness :
  ∃ e s', getCachedEmbyConfig (Sample.play_world 1700000300000 Sample.disabled None) Sample.warm
            = (inl e, s')
    ∧ cachedEmbyConfig s' = Some Sample.entry
    ∧ ∀ w', 1700000300000 <= Date_now w' →
        ∃ r s'', getCachedEmbyConfig w' s' = (r, s'')
                 ∧ io s'' = io s' ++ [EvGetConfig].
Proof.
  apply (failed_reload_not_cached
           (Sample.play_world 1700000300000 Sample.disabled None) Sample.warm Sample.disabled).
  - right. exists Sample.entry. split; [reflexivity | simpl; lia].
  - reflexivity.
  - right. eexists. split; [reflexivity|]. left. reflexivity.
Defined.

(** C7. A call that has to reload - it finds no entry, or one whose age has
    reached 300000 ms - fails when the store has no Emby configuration, when
    that configuration is disabled and when it lacks the server URL.
    Otherwise the credential of the returned entry is the API key when there
    is one, else the auth token, and the call fails when there is neither. *)
Theorem reload_validation (w : World) (s : State) (config : AdminConfig) :
  cache_miss w s →
  getConfig w = inr config →
  let r := (getCachedEmbyConfig w s).1 in
  ((EmbyConfig config = None
    ∨ ∃ e, EmbyConfig config = Some e
           ∧ (Enabled e = false ∨ Js.truthy (ServerURL e) = false)) →
   r = inl "Emby 未配置或未启用")
  ∧ ∀ e, EmbyConfig config = Some e →
         Enabled e = true →
         Js.truthy (ServerURL e) = true →
         (Js.truthy (ApiKey e) = true →
          ∃ c, r = inr c ∧ Some (apiKey c) = ApiKey e)
         ∧ (Js.truthy (ApiKey e) = false → Js.truthy (AuthToken e) = true →
            ∃ c, r = inr c ∧ Some (apiKey c) = AuthToken e)
         ∧ (Js.truthy (ApiKey e) = false → Js.truthy (AuthToken e) = false →
            r = inl "Emby 认证信息缺失").
Proof.
  intros Hmiss Hg r. subst r. rewrite (miss _ _ Hmiss).
  unfold reloadEmbyConfig, await_getConfig, bind, log, lift. rewrite Hg. simpl.
  split.
  - intros [-> | (e & -> & Hbad)]; [reflexivity|].
    destruct Hbad as [-> | Hu]; [reflexivity|].
    rewrite Hu. destruct (Enabled e); reflexivity.
  - intros e -> -> ->. simpl. unfold Js.or. repeat split.
    + intros Hk. rewrite Hk, Hk. simpl. eexists. split; [reflexivity|]. simpl.
      destruct (truthy_Some _ Hk) as (v & Hv & _ & ->). by rewrite Hv.
    + intros Hk Ht. rewrite Hk, Ht. simpl. eexists. split; [reflexivity|]. simpl.
      destruct (truthy_Some _ Ht) as (v & Hv & _ & ->). by rewrite Hv.
    + intros Hk Ht. rewrite Hk, Ht. reflexivity.
Qed.

Lemma reload_validation_witness :
  (∃ c, (getCachedEmbyConfig (Sample.play_world 5 Sample.store None) Sample.cold).1 = inr c
        ∧ Some (apiKey c) = Some "k-123")
  ∧ (getCachedEmbyConfig (Sample.play_world 5 Sample.disabled None) Sample.cold).1
      = inl "Emby 未配置或未启用".
Proof.
  split.
  - destruct (reload_validation
                (Sample.play_world 5 Sample.store None) Sample.cold Sample.store
                (or_introl eq_refl) eq_refl) as [_ Hsel].
    destruct (Hsel Sample.embyConfig eq_refl eq_refl eq_refl) as [Hkey _].
    exact (Hkey eq_refl).
  - destruct (reload_validation
                (Sample.play_world 5 Sample.disabled None) Sample.cold Sample.disabled
                (or_introl eq_refl) eq_refl) as [Hfail _].
    apply Hfail. right. eexists. split; [reflexivity|]. left. reflexivity.
Defined.

(** Within the TTL the store is not consulted: with a disabled configuration
    behind it, a call 299999 ms after the load still returns the entry. *)
Lemma reload_validation_counterexample :
  getConfig (Sample.play_world 1700000299999 Sample.disabled None) = inr Sample.disabled
  ∧ (∃ e, EmbyConfig Sample.disabled = Some e ∧ Enabled e = false)
  ∧ getCachedEmbyConfig (Sample.play_world 1700000299999 Sample.disabled None) Sample.warm
    = (inr Sample.entry, Sample.warm).
Proof.
  split; [reflexivity|]. split; [|reflexivity].
  eexists. split; reflexivity.
Qed.

End ConfigCacheClaims.

(** ** The play proxy *)

Section Stream.
Import Play PlaySpec.

Lemma GET_unauthorized (w : World) (request : Request) (params : Params) (s : State) :
  hasValidToken w params = false →
  hasValidAuth w request = false →
  GET w request params s = (inr (json "未授权" None 401), s).
Proof.
  intros Ht Ha. unfold GET, try_catch. rewrite Ht, Ha. reflexivity.
Qed.

(** What [GET] does once the guard has let the request through. *)
Lemma GET_authorized (w : World) (request : Request) (params : Params) (s : State) :
  hasValidToken w params || hasValidAuth w request = true →
  GET w request params s =
    try_catch
      (let itemId := searchParams request !! "itemId" in
       if negb (Js.truthy itemId) then ret (json "缺少 itemId 参数" None 400)
       else
         embyConfig <- getCachedEmbyConfig w ;;
         videoResponse <-
           await_fetch w (embyStreamUrl embyConfig (Js.str itemId))
                       (requestHeaders request) ;;
         if negb (ok videoResponse) then ret (json "获取视频流失败" None 500)
         else
           ret {| status := up_status videoResponse;
                  headers := responseHeaders videoResponse params;
                  body := Stream (up_body videoResponse) |})
      (λ error, ret (json "播放失败" (Some error) 500)) s.
Proof.
  intros H. unfold GET, try_catch.
  destruct (hasValidToken w params), (hasValidAuth w request);
    try discriminate; reflexivity.
Qed.

Lemma GET_authorized_status (w : World) (request : Request) (params : Params)
    (s : State) :
  hasValidToken w params || hasValidAuth w request = true →
  ∃ r s', GET w request params s = (inr r, s') ∧ status r ≠ 401.
Proof.
  intros H. rewrite (GET_authorized _ _ _ _ H). unfold try_catch. simpl.
  destruct (Js.truthy (searchParams request !! "itemId")); simpl.
  2:{ eexists _, _. split; [reflexivity|]. simpl. lia. }
  unfold bind at 1.
  destruct (getCachedEmbyConfig w s) as [[e|c] s1].
  { eexists _, _. split; [reflexivity|]. simpl. lia. }
  unfold await_fetch, bind, log, lift. simpl.
  destruct (fetch w _ _) as [e|v].
  { eexists _, _. split; [reflexivity|]. simpl. lia. }
  destruct (ok v) eqn:Hok; simpl.
  - eexists _, _. split; [reflexivity|]. simpl.
    unfold ok in Hok. apply andb_true_iff in Hok as [H1 H2].
    apply bool_decide_eq_true in H1, H2. lia.
  - eexists _, _. split; [reflexivity|]. simpl. lia.
Qed.

Lemma requestHeaders_only_Range (request : Request) :
  only_Range (requestHeaders request).
Proof.
  intros name. unfold requestHeaders.
  destruct (Js.truthy (req_headers request !! "range")).
  - destruct (decide (name = "Range")) as [->|Hne]; [done|].
    rewrite lookup_insert_ne by done. rewrite lookup_empty. by intros [? ?].
  - rewrite lookup_empty. by intros [? ?].
Qed.

(** C6. For a request that passes the guard and names an item, with [c] the
    configuration the cache resolves, the handler makes one upstream request.
    Its URL is the server URL of [c], the stream path of the item and the
    credential of [c] as [api_key], so it contains both.  Its headers are the
    inbound [Range] value, unchanged, when the request has a non-empty one,
    and nothing when it has none; no other header is ever sent. *)
Theorem stream_upstream_request (w : World) (request : Request) (params : Params)
    (s s1 : State) (c : CachedEmbyConfig) :
  hasValidToken w params || hasValidAuth w request = true →
  Js.truthy (searchParams request !! "itemId") = true →
  getCachedEmbyConfig w s = (inr c, s1) →
  ∃ r s2 url sent,
    GET w request params s = (inr r, s2)
    ∧ io s2 = io s1 ++ [EvFetch url sent]
    ∧ url = serverURL c +:+ "/Videos/" +:+ Js.str (searchParams request !! "itemId")
              +:+ "/stream?Static=true&api_key=" +:+ apiKey c
    ∧ Js.includes url (serverURL c) = true
    ∧ Js.includes url (apiKey c) = true
    ∧ (∀ v, req_headers request !! "range" = Some v → v ≠ "" →
            sent = {[ "Range" := v ]})
    ∧ (Js.truthy (req_headers request !! "range") = false → sent = ∅)
    ∧ only_Range sent.
Proof.
  intros Hauth Hid Hc. rewrite (GET_authorized _ _ _ _ Hauth).
  unfold try_catch. simpl. rewrite Hid. simpl. unfold bind at 1. rewrite Hc.
  unfold await_fetch, bind, log, lift. simpl.
  set (url := embyStreamUrl c _).
  set (sent := requestHeaders request).
  set (s2 := {| cachedEmbyConfig := cachedEmbyConfig s1; io := io s1 ++ [EvFetch url sent] |}).
  assert (∃ r, (match
                  match fetch w url sent with
                  | inr a =>
                      (if negb (ok a) then ret (json "获取视频流失败" None 500)
                       else ret {| status := up_status a;
                                   headers := responseHeaders a params;
                                   body := Stream (up_body a) |}) s2
                  | inl e => (inl e, s2)
                  end
                with
                | (inr a, s') => (inr a, s')
                | (inl e, s') => ret (json "播放失败" (Some e) 500) s'
                end) = (inr r, s2)) as [r Hr].
  { destruct (fetch w url sent) as [e|a]; [eexists; reflexivity|].
    destruct (ok a); eexists; reflexivity. }
  exists r, s2, url, sent. split; [exact Hr|]. split; [reflexivity|].
  split; [reflexivity|].
  split; [apply includes_app_l|].
  split.
  { subst url. unfold embyStreamUrl.
    do 3 apply includes_app_skip. apply includes_app_r. }
  split.
  { intros v Hv Hne. subst sent. unfold requestHeaders. rewrite Hv. simpl.
    rewrite bool_decide_eq_false_2 by done. reflexivity. }
  split.
  { intros Hf. subst sent. unfold requestHeaders. rewrite Hf. reflexivity. }
  apply requestHeaders_only_Range.
Qed.

End Stream.

Section StreamWitness.
Import Play PlaySpec.

Lemma stream_upstream_request_witness :
  let w := Sample.play_world 1700000000000 Sample.store (Some "s3cret") in
  let request :=
    Sample.play_request [("itemId", "42")] [("range", "bytes=0-99")] in
  let c := {| serverURL := "http://emby.lan:8096"; apiKey := "k-123";
              timestamp := 1700000000000 |} in
  let s1 := {| cachedEmbyConfig := Some c; io := [EvGetConfig] |} in
  ∃ r s2 url sent,
    GET w request (Sample.play_params "s3cret") Sample.cold = (inr r, s2)
    ∧ io s2 = io s1 ++ [EvFetch url sent]
    ∧ url = serverURL c +:+ "/Videos/" +:+ Js.str (searchParams request !! "itemId")
              +:+ "/stream?Static=true&api_key=" +:+ apiKey c
    ∧ Js.includes url (serverURL c) = true
    ∧ Js.includes url (apiKey c) = true
    ∧ (∀ v, req_headers request !! "range" = Some v → v ≠ "" →
            sent = {[ "Range" := v ]})
    ∧ (Js.truthy (req_headers request !! "range") = false → sent = ∅)
    ∧ only_Range sent.
Proof.
  intros w request c s1.
  apply (stream_upstream_request w request (Sample.play_params "s3cret")
           Sample.cold s1 c); vm_compute; reflexivity.
Defined.

(** The sample request above, end to end: the upstream is asked for
    [http://emby.lan:8096/Videos/42/stream?Static=true&api_key=k-123] with the
    [Range] header alone, and its 206 is relayed. *)
Lemma stream_example :
  let w := Sample.play_world 1700000000000 Sample.store (Some "s3cret") in
  let request :=
    Sample.play_request [("itemId", "42")] [("range", "bytes=0-99")] in
  ∃ r s2,
    GET w request (Sample.play_params "s3cret") Sample.cold = (inr r, s2)
    ∧ status r = 206
    ∧ io s2 = [EvGetConfig;
               EvFetch "http://emby.lan:8096/Videos/42/stream?Static=true&api_key=k-123"
                       {[ "Range" := "bytes=0-99" ]}].
Proof. eexists _, _. vm_compute. repeat split. Qed.

End StreamWitness.

(** ** Sorting with a comparator *)

Section SortFacts.
Context {A : Type} (cmp : A → A → Z).

Lemma sort_insert_Permutation (x : A) (l : list A) :
  Js.sort_insert cmp x l ≡ₚ x :: l.
Proof.
  induction l as [|y l IH]; simpl; [done|].
  case_bool_decide; [done|]. rewrite IH. apply Permutation_swap.
Qed.

Lemma sort_Permutation (l : list A) : Js.sort cmp l ≡ₚ l.
Proof.
  induction l as [|x l IH]; simpl; [done|].
  rewrite sort_insert_Permutation. by rewrite IH.
Qed.

Lemma sort_elem_of (x : A) (l : list A) : x ∈ Js.sort cmp l ↔ x ∈ l.
Proof. by rewrite sort_Permutation. Qed.
End SortFacts.

(** ** The order of the episodes *)

Section Episodes.
Import CmsProxy CmsSpec.

Lemma key_le_total (a b : Episode) : key_le a b ∨ key_le b a.
Proof. unfold key_le. lia. Qed.

Lemma key_le_trans (a b c : Episode) : key_le a b → key_le b c → key_le a c.
Proof. unfold key_le. lia. Qed.

(** Where the season numbers agree the comparator decides the key order. *)
Lemma compareEpisodes_key_le (a b : Episode) :
  seasons_agree a b → (compareEpisodes a b <= 0 ↔ key_le a b).
Proof.
  unfold seasons_agree, compareEpisodes, key_le. intros Hagree.
  case_bool_decide as Hne.
  - assert (Js.or_zero (ParentIndexNumber a) ≠ Js.or_zero (ParentIndexNumber b))
      by (intros Heq; apply Hne, Hagree, Heq).
    lia.
  - rewrite Hne. lia.
Qed.

Lemma sort_insert_sorted (x : Episode) (l : list Episode) :
  Forall (seasons_agree x) l →
  StronglySorted key_le l →
  StronglySorted key_le (Js.sort_insert compareEpisodes x l).
Proof.
  induction l as [|y l IH]; simpl; intros Hagree Hsorted.
  - repeat constructor.
  - apply Forall_cons in Hagree as [Hxy Hagree].
    apply StronglySorted_inv in Hsorted as [Hl Hy].
    case_bool_decide as Hcmp.
    + apply compareEpisodes_key_le in Hcmp; [|done].
      constructor; [by constructor|]. constructor; [done|].
      eapply Forall_impl; [exact Hy|]. intros z Hz. by eapply key_le_trans.
    + constructor; [by apply IH|].
      rewrite sort_insert_Permutation. constructor; [|done].
      destruct (key_le_total x y) as [Hle|Hle]; [|done].
      apply compareEpisodes_key_le in Hle; done.
Qed.

(** On episodes whose season numbers agree pairwise, the code's sort yields
    the episodes in ascending key order. *)
Lemma sort_episodes_sorted (l : list Episode) :
  (∀ a b, a ∈ l → b ∈ l → seasons_agree a b) →
  StronglySorted key_le (Js.sort compareEpisodes l).
Proof.
  induction l as [|x l IH]; simpl; intros Hagree; [constructor|].
  apply sort_insert_sorted.
  - apply Forall_forall. intros y Hy. apply sort_elem_of in Hy.
    apply Hagree; [left | by right].
  - apply IH. intros a b Ha Hb. apply Hagree; by right.
Qed.

(** Episodes that all carry a season number agree pairwise. *)
Lemma seasons_present_agree (l : list Episode) :
  Forall (λ ep, is_Some (ParentIndexNumber ep)) l →
  ∀ a b, a ∈ l → b ∈ l → seasons_agree a b.
Proof.
  intros Hall a b Ha Hb. rewrite Forall_forall in Hall.
  destruct (Hall a Ha) as [pa Hpa], (Hall b Hb) as [pb Hpb].
  unfold seasons_agree. rewrite Hpa, Hpb. simpl. by intros ->.
Qed.

(** The example of the specification: (1,2),(1,1),(2,1) come out as
    (1,1),(1,2),(2,1), each as ["第N集$<proxyURL>"], joined by ["#"]. *)
Lemma series_example :
  Js.sort compareEpisodes CmsSample.three
    = [CmsSample.episode "e11" (Some 1) (Some 1);
       CmsSample.episode "e12" (Some 1) (Some 2);
       CmsSample.episode "e21" (Some 2) (Some 1)]
  ∧ seriesPlayUrl "https://tv.example.org" "s3cret" CmsSample.three
    = "第1集$https://tv.example.org/api/emby/play/s3cret/video.mp4?itemId=e11"
      +:+ "#第2集$https://tv.example.org/api/emby/play/s3cret/video.mp4?itemId=e12"
      +:+ "#第1集$https://tv.example.org/api/emby/play/s3cret/video.mp4?itemId=e21".
Proof. split; vm_compute; reflexivity. Qed.

End Episodes.

(** ** The detail answer *)

Section Detail.
Import CmsProxy CmsSpec.

(** C8. For a movie the detail answer has one record, and its [vod_play_url]
    is a play list of a single segment: the label ["正片"], ["$"], and the
    URL of the play route of this site for the token and the item. *)
Theorem movie_play_url (w : World) (client : EmbyClient) (itemId token : string)
    (request : Request) (item : Item) :
  getItem client itemId = inr item →
  Type_ item = "Movie" →
  ∃ record,
    handleDetail w client itemId token request
      = inr (json (VodList 1 "数据列表" 1 1 1 1 [record]))
    ∧ vod_play_url record =
        Some (Js.join "#"
                ["正片" +:+ "$" +:+
                 (baseUrl w request +:+ "/api/emby/play/"
                    +:+ Js.encodeURIComponent token
                    +:+ "/video.mp4?itemId=" +:+ Id item)]).
Proof.
  intros Hitem Hmovie. unfold handleDetail, bind. rewrite Hitem.
  rewrite bool_decide_eq_true_2 by exact Hmovie.
  eexists. split; reflexivity.
Qed.

Lemma movie_play_url_witness :
  ∃ record,
    handleDetail (CmsSample.world (Some "s3cret") []) (CmsSample.client [])
                 "m1" "s3 cret" (CmsSample.request [])
      = inr (json (VodList 1 "数据列表" 1 1 1 1 [record]))
    ∧ vod_play_url record =
        Some "正片$https://tv.example.org/api/emby/play/s3%20cret/video.mp4?itemId=m1".
Proof.
  apply (movie_play_url (CmsSample.world (Some "s3cret") []) (CmsSample.client [])
           "m1" "s3 cret" (CmsSample.request []) CmsSample.movie);
    reflexivity.
Defined.

(** C10. An episode without episode number is compared as if its number
    were 0, and its segment of [vod_play_url] is built from the absent value:
    it reads ["第undefined集"], ["$"], then the proxy URL. *)
Theorem absent_episode_number (base token : string) (ep : Episode) :
  IndexNumber ep = None →
  let zero := {| ep_Id := ep_Id ep;
                 ParentIndexNumber := ParentIndexNumber ep;
                 IndexNumber := Some 0 |} in
  (∀ other, compareEpisodes ep other = compareEpisodes zero other
            ∧ compareEpisodes other ep = compareEpisodes other zero)
  ∧ playEntry base token ep
      = "第undefined集" +:+ "$" +:+ proxyUrl base token (ep_Id ep)
  ∧ Js.startsWith (playEntry base token ep) "第undefined集" = true
  ∧ ∀ allEpisodes, ep ∈ allEpisodes →
      ∃ segments,
        seriesPlayUrl base token allEpisodes = Js.join "#" segments
        ∧ playEntry base token ep ∈ segments.
Proof.
  intros Hnone zero. split; [|split; [|split]].
  - intros other. unfold compareEpisodes. subst zero. simpl. rewrite Hnone.
    split; reflexivity.
  - unfold playEntry. rewrite Hnone. reflexivity.
  - unfold playEntry. rewrite Hnone. reflexivity.
  - intros allEpisodes Hin. eexists. split; [reflexivity|].
    apply list_elem_of_fmap_2. by apply sort_elem_of.
Qed.

Lemma absent_episode_number_witness :
  let ep := CmsSample.episode "e7" (Some 1) None in
  let zero := CmsSample.episode "e7" (Some 1) (Some 0) in
  (∀ other, compareEpisodes ep other = compareEpisodes zero other
            ∧ compareEpisodes other ep = compareEpisodes other zero)
  ∧ playEntry "https://tv.example.org" "s3cret" ep
      = "第undefined集$https://tv.example.org/api/emby/play/s3cret/video.mp4?itemId=e7"
  ∧ Js.startsWith (playEntry "https://tv.example.org" "s3cret" ep) "第undefined集" = true
  ∧ ∀ allEpisodes, ep ∈ allEpisodes →
      ∃ segments,
        seriesPlayUrl "https://tv.example.org" "s3cret" allEpisodes = Js.join "#" segments
        ∧ playEntry "https://tv.example.org" "s3cret" ep ∈ segments.
Proof.
  intros ep zero.
  apply (absent_episode_number "https://tv.example.org" "s3cret" ep).
  reflexivity.
Defined.

(** C5, on the input [CmsSample.specials]: an episode 2 without season number
    listed before episode 1 of season 0.  With absent numbers counted as 0
    their keys are (0,2) and (0,1), yet the comparator answers 0 for the pair
    in both directions, the sort leaves them as they came, and the play list
    of the detail answer names episode 2 first. *)
Theorem specials_out_of_order :
  compareEpisodes (CmsSample.episode "x2" None (Some 2))
                  (CmsSample.episode "x1" (Some 0) (Some 1)) = 0
  ∧ compareEpisodes (CmsSample.episode "x1" (Some 0) (Some 1))
                    (CmsSample.episode "x2" None (Some 2)) = 0
  ∧ Js.sort compareEpisodes CmsSample.specials = CmsSample.specials
  ∧ ¬ StronglySorted key_le (Js.sort compareEpisodes CmsSample.specials)
  ∧ ∃ record,
      GET (CmsSample.world (Some "s3cret") CmsSample.specials)
          (CmsSample.request [("ac", "detail"); ("ids", "s1")])
          (CmsSample.params "s3cret")
        = json (VodList 1 "数据列表" 1 1 1 1 [record])
      ∧ vod_play_url record =
          Some ("第2集$https://tv.example.org/api/emby/play/s3cret/video.mp4?itemId=x2"
                +:+ "#第1集$https://tv.example.org/api/emby/play/s3cret/video.mp4?itemId=x1").
Proof.
  split; [reflexivity|]. split; [reflexivity|]. split; [reflexivity|]. split.
  - intros Hsorted. apply StronglySorted_inv in Hsorted as [_ Hhd].
    apply Forall_cons in Hhd as [Hle _]. unfold key_le in Hle. simpl in Hle. lia.
  - eexists. split; vm_compute; reflexivity.
Qed.

End Detail.

(** ** The answers of the CMS proxy *)

Section Catalog.
Import CmsProxy CmsSpec.

Lemma empty_list_matches (code : Z) (msg : string) :
  list_matches_limit_total (body (empty_list code msg)).
Proof. by exists code, msg, 1, 0, []. Qed.

Lemma handleSearch_matches (client : EmbyClient) (query : string) (r : Response) :
  handleSearch client query = inr r → list_matches_limit_total (body r).
Proof.
  unfold handleSearch, bind. destruct (getItems client _) as [e|items]; [done|].
  intros [= <-]. simpl. by eexists _, _, _, _, _.
Qed.

Lemma handleDetail_matches (w : World) (client : EmbyClient) (itemId token : string)
    (request : Request) (r : Response) :
  handleDetail w client itemId token request = inr r →
  list_matches_limit_total (body r).
Proof.
  unfold handleDetail, bind. destruct (getItem client itemId) as [e|item]; [done|].
  destruct (if bool_decide (Type_ item = "Movie") then _ else _) as [e|url]; [done|].
  intros [= <-]. simpl. by eexists _, _, _, _, [_].
Qed.

Lemma handleDetailBySearch_matches (w : World) (client : EmbyClient)
    (query token : string) (request : Request) (r : Response) :
  handleDetailBySearch w client query token request = inr r →
  list_matches_limit_total (body r).
Proof.
  unfold handleDetailBySearch, bind.
  destruct (getItems client _) as [e|[|first rest]]; [done| |].
  - intros [= <-]. apply empty_list_matches.
  - apply handleDetail_matches.
Qed.

Lemma GET_unsupported (w : World) (request : Request) (params : Params) :
  supported (searchParams request !! "ac") = false →
  GET w request params = json_status (CodeMsg 400 "不支持的操作") 400.
Proof. intros H. unfold GET. rewrite H. reflexivity. Qed.

Lemma GET_rejected (w : World) (request : Request) (params : Params) :
  supported (searchParams request !! "ac") = true →
  Js.truthy (TVBOX_SUBSCRIBE_TOKEN w) = false
  ∨ Some (token params) ≠ TVBOX_SUBSCRIBE_TOKEN w →
  GET w request params = json (VodList 401 "无效的访问token" 1 0 0 0 []).
Proof.
  intros Hac Hbad. unfold GET. rewrite Hac. simpl.
  destruct Hbad as [-> | Hne]; [reflexivity|].
  rewrite (bool_decide_eq_true_2 _ Hne), orb_true_r. reflexivity.
Qed.

(** C3. Every answer to a request whose [ac] is one of [videolist], [list]
    and [detail] - search and detail results, a rejected token, missing
    configuration, failed authentication, missing id, nothing found, a
    caught error - carries a [list] whose length is both [limit] and
    [total]. *)
Theorem list_length_is_limit_and_total (w : World) (request : Request)
    (params : Params) :
  supported (searchParams request !! "ac") = true →
  list_matches_limit_total (body (GET w request params)).
Proof.
  intros Hac. unfold GET. rewrite Hac. simpl.
  destruct (negb _ || bool_decide _); [apply empty_list_matches|].
  unfold bind at 1.
  destruct (getConfig w) as [e|config]; [apply empty_list_matches|].
  destruct (EmbyConfig config) as [embyConfig|]; [|apply empty_list_matches].
  destruct (negb _ || negb _); [apply empty_list_matches|].
  unfold bind at 1.
  destruct (resolveUserId _ embyConfig) as [e|userId]; [apply empty_list_matches|].
  destruct (negb (Js.truthy userId)); [apply empty_list_matches|].
  repeat match goal with
         | |- context [if ?b then _ else _] => destruct b
         end;
    cbv beta iota; try apply empty_list_matches;
    match goal with
    | |- context [match ?h with inl _ => _ | inr _ => _ end] =>
        destruct h as [e|r] eqn:Hh; [apply empty_list_matches|]
    end;
    eauto using handleSearch_matches, handleDetail_matches,
      handleDetailBySearch_matches.
Qed.

Lemma list_length_is_limit_and_total_witness :
  list_matches_limit_total
    (body (GET (CmsSample.world (Some "s3cret") [])
               (CmsSample.request [("ac", "videolist")])
               (CmsSample.params "s3cret"))).
Proof.
  apply (list_length_is_limit_and_total (CmsSample.world (Some "s3cret") [])
           (CmsSample.request [("ac", "videolist")]) (CmsSample.params "s3cret")).
  reflexivity.
Defined.

(** The answer to an unsupported [ac] is [{ code: 400, msg }] with HTTP
    status 400: it has no [list], [limit] or [total]. *)
Lemma list_length_counterexample :
  GET (CmsSample.world (Some "s3cret") [])
      (CmsSample.request [("ac", "search")]) (CmsSample.params "s3cret")
    = {| status := 400; body := CodeMsg 400 "不支持的操作" |}
  ∧ ¬ list_matches_limit_total
        (body (GET (CmsSample.world (Some "s3cret") [])
                   (CmsSample.request [("ac", "search")])
                   (CmsSample.params "s3cret"))).
Proof.
  split; [reflexivity|].
  intros (code & msg & page & pagecount & l & H). vm_compute in H. discriminate H.
Qed.

End Catalog.

(** ** The access guard of both routes *)

Section AccessGuard.

Lemma hasValidToken_wrong (w : Play.World) (params : Play.Params) :
  Js.truthy (Play.TVBOX_SUBSCRIBE_TOKEN w) = false
  ∨ Some (Play.token params) ≠ Play.TVBOX_SUBSCRIBE_TOKEN w →
  Play.hasValidToken w params = false.
Proof.
  unfold Play.hasValidToken. intros [-> | Hne]; [reflexivity|].
  rewrite (bool_decide_eq_false_2 _ Hne). apply andb_false_r.
Qed.

(** C2. A token that is not the configured secret is answered, by the CMS
    proxy when [ac] is one of [videolist], [list] and [detail], with HTTP 200
    and a body of code 401 and empty list, and by the play proxy, when the
    request carries no valid session, with HTTP 401. *)
Theorem wrong_token_rejected (secret : option string) (token filename : string)
    (cw : CmsProxy.World) (creq : CmsProxy.Request)
    (pw : Play.World) (preq : Play.Request) (s : Play.State) :
  CmsProxy.TVBOX_SUBSCRIBE_TOKEN cw = secret →
  Play.TVBOX_SUBSCRIBE_TOKEN pw = secret →
  Some token ≠ secret →
  (CmsProxy.supported (CmsProxy.searchParams creq !! "ac") = true →
   CmsProxy.GET cw creq {| CmsProxy.token := token |}
     = {| CmsProxy.status := 200;
          CmsProxy.body := CmsProxy.VodList 401 "无效的访问token" 1 0 0 0 [] |})
  ∧ (Play.hasValidAuth pw preq = false →
     ∃ r, Play.GET pw preq {| Play.token := token; Play.filename := filename |} s
            = (inr r, s)
          ∧ Play.status r = 401).
Proof.
  intros Hc Hp Hne. split.
  - intros Hac. apply GET_rejected; [exact Hac|]. right. simpl. by rewrite Hc.
  - intros Hauth. eexists. split.
    + apply GET_unauthorized; [|exact Hauth].
      apply hasValidToken_wrong. right. simpl. by rewrite Hp.
    + reflexivity.
Qed.

Lemma wrong_token_rejected_witness :
  CmsProxy.GET (CmsSample.world (Some "s3cret") [])
               (CmsSample.request [("ac", "list")]) {| CmsProxy.token := "guess" |}
    = {| CmsProxy.status := 200;
         CmsProxy.body := CmsProxy.VodList 401 "无效的访问token" 1 0 0 0 [] |}
  ∧ ∃ r, Play.GET (Sample.play_world 0 Sample.store (Some "s3cret"))
                  (Sample.play_request [("itemId", "42")] [])
                  {| Play.token := "guess"; Play.filename := "video.mp4" |} Sample.cold
           = (inr r, Sample.cold)
         ∧ Play.status r = 401.
Proof.
  destruct (wrong_token_rejected (Some "s3cret") "guess" "video.mp4"
              (CmsSample.world (Some "s3cret") []) (CmsSample.request [("ac", "list")])
              (Sample.play_world 0 Sample.store (Some "s3cret"))
              (Sample.play_request [("itemId", "42")] []) Sample.cold
              eq_refl eq_refl ltac:(discriminate)) as [Hcms Hplay].
  split; [apply Hcms; reflexivity | apply Hplay; reflexivity].
Defined.

(** With the secret ["s3cret"] and the token ["guess"]: the CMS proxy answers
    an unsupported [ac] with HTTP 400 and [{ code: 400, msg }], and the play
    proxy serves the stream to a request that carries a valid session. *)
Lemma wrong_token_counterexample :
  Some "guess" ≠ Some "s3cret"
  ∧ CmsProxy.GET (CmsSample.world (Some "s3cret") [])
                 (CmsSample.request [("ac", "search")]) {| CmsProxy.token := "guess" |}
      = {| CmsProxy.status := 400; CmsProxy.body := CmsProxy.CodeMsg 400 "不支持的操作" |}
  ∧ ∃ r s',
      Play.GET (Sample.play_world 0 Sample.store (Some "s3cret"))
               (Sample.play_request [("itemId", "42")] [("cookie", "user_auth=alice")])
               {| Play.token := "guess"; Play.filename := "video.mp4" |} Sample.cold
        = (inr r, s')
      ∧ Play.status r = 200
      ∧ Play.body r = Play.Stream "...".
Proof.
  split; [discriminate|]. split; [reflexivity|].
  eexists _, _. vm_compute. repeat split.
Qed.

(** C9. When the secret is unset or empty, the CMS proxy answers every
    request whose [ac] is one of [videolist], [list] and [detail] with the
    code 401 body, whatever the token, and the play proxy answers 401 exactly
    to the requests without a valid session. *)
Theorem no_secret_configured (token filename : string)
    (cw : CmsProxy.World) (creq : CmsProxy.Request)
    (pw : Play.World) (preq : Play.Request) (s : Play.State) :
  Js.truthy (CmsProxy.TVBOX_SUBSCRIBE_TOKEN cw) = false →
  Js.truthy (Play.TVBOX_SUBSCRIBE_TOKEN pw) = false →
  (CmsProxy.supported (CmsProxy.searchParams creq !! "ac") = true →
   CmsProxy.GET cw creq {| CmsProxy.token := token |}
     = {| CmsProxy.status := 200;
          CmsProxy.body := CmsProxy.VodList 401 "无效的访问token" 1 0 0 0 [] |})
  ∧ (Play.hasValidAuth pw preq = false →
     Play.GET pw preq {| Play.token := token; Play.filename := filename |} s
       = (inr (Play.json "未授权" None 401), s))
  ∧ (Play.hasValidAuth pw preq = true →
     ∃ r s', Play.GET pw preq {| Play.token := token; Play.filename := filename |} s
               = (inr r, s')
             ∧ Play.status r ≠ 401).
Proof.
  intros Hc Hp. split; [|split].
  - intros Hac. apply GET_rejected; [exact Hac|]. by left.
  - intros Hauth. apply GET_unauthorized; [|exact Hauth].
    apply hasValidToken_wrong. by left.
  - intros Hauth. apply GET_authorized_status. rewrite Hauth. apply orb_true_r.
Qed.

Lemma no_secret_configured_witness :
  CmsProxy.GET (CmsSample.world (Some "") [])
               (CmsSample.request [("ac", "detail")]) {| CmsProxy.token := "" |}
    = {| CmsProxy.status := 200;
         CmsProxy.body := CmsProxy.VodList 401 "无效的访问token" 1 0 0 0 [] |}
  ∧ Play.GET (Sample.play_world 0 Sample.store (Some ""))
             (Sample.play_request [("itemId", "42")] [])
             {| Play.token := ""; Play.filename := "video.mp4" |} Sample.cold
      = (inr (Play.json "未授权" None 401), Sample.cold)
  ∧ ∃ r s', Play.GET (Sample.play_world 0 Sample.store None)
                     (Sample.play_request [("itemId", "42")]
                                          [("cookie", "user_auth=alice")])
                     {| Play.token := "guess"; Play.filename := "video.mp4" |} Sample.cold
              = (inr r, s')
            ∧ Play.status r ≠ 401.
Proof.
  destruct (no_secret_configured "" "video.mp4"
              (CmsSample.world (Some "") []) (CmsSample.request [("ac", "detail")])
              (Sample.play_world 0 Sample.store (Some ""))
              (Sample.play_request [("itemId", "42")] []) Sample.cold
              eq_refl eq_refl) as (Hcms & Hplay & _).
  destruct (no_secret_configured "guess" "video.mp4"
              (CmsSample.world None []) (CmsSample.request [])
              (Sample.play_world 0 Sample.store None)
              (Sample.play_request [("itemId", "42")] [("cookie", "user_auth=alice")])
              Sample.cold eq_refl eq_refl) as (_ & _ & Hsession).
  split; [apply Hcms; reflexivity|].
  split; [apply Hplay; reflexivity | apply Hsession; reflexivity].
Defined.

(** Without a secret, a request with an unsupported [ac] is still answered
    with HTTP 400 and [{ code: 400, msg }], not with the code 401 body. *)
Lemma no_secret_counterexample :
  Js.truthy (CmsProxy.TVBOX_SUBSCRIBE_TOKEN (CmsSample.world None [])) = false
  ∧ CmsProxy.GET (CmsSample.world None []) (CmsSample.request [])
                 {| CmsProxy.token := "guess" |}
      = {| CmsProxy.status := 400; CmsProxy.body := CmsProxy.CodeMsg 400 "不支持的操作" |}
  ∧ CmsProxy.GET (CmsSample.world None []) (CmsSample.request [])
                 {| CmsProxy.token := "guess" |}
      ≠ {| CmsProxy.status := 200;
           CmsProxy.body := CmsProxy.VodList 401 "无效的访问token" 1 0 0 0 [] |}.
Proof.
  split; [reflexivity|]. split; [reflexivity|]. vm_compute. discriminate.
Qed.

End AccessGuard.

(** * Further properties *)

(** ** The play proxy, case by case *)

Section PlayCases.
Import Play PlaySpec PlayView.

Lemma GET_no_item (w : World) (request : Request) (params : Params) (s : State) :
  authorized w request params = true →
  Js.truthy (searchParams request !! "itemId") = false →
  GET w request params s = (inr (json "缺少 itemId 参数" None 400), s).
Proof.
  intros Ha Hid. rewrite (GET_authorized _ _ _ _ Ha). unfold try_catch. simpl.
  rewrite Hid. reflexivity.
Qed.

Lemma GET_config_error (w : World) (request : Request) (params : Params)
    (s s1 : State) (e : Exn) :
  authorized w request params = true →
  Js.truthy (searchParams request !! "itemId") = true →
  getCachedEmbyConfig w s = (inl e, s1) →
  GET w request params s = (inr (json "播放失败" (Some e) 500), s1).
Proof.
  intros Ha Hid Hc. rewrite (GET_authorized _ _ _ _ Ha). unfold try_catch. simpl.
  rewrite Hid. simpl. unfold bind at 1. rewrite Hc. reflexivity.
Qed.

Lemma GET_fetch (w : World) (request : Request) (params : Params)
    (s s1 : State) (c : CachedEmbyConfig) :
  authorized w request params = true →
  Js.truthy (searchParams request !! "itemId") = true →
  getCachedEmbyConfig w s = (inr c, s1) →
  GET w request params s =
    (inr match fetch w (embyStreamUrl c (Js.str (searchParams request !! "itemId")))
                       (requestHeaders request) with
         | inl e => json "播放失败" (Some e) 500
         | inr videoResponse =>
             if ok videoResponse
             then {| status := up_status videoResponse;
                     headers := responseHeaders videoResponse params;
                     body := Stream (up_body videoResponse) |}
             else json "获取视频流失败" None 500
         end,
     fetched s1 c request).
Proof.
  intros Ha Hid Hc. rewrite (GET_authorized _ _ _ _ Ha). unfold try_catch. simpl.
  rewrite Hid. simpl. unfold bind at 1. rewrite Hc.
  unfold await_fetch, bind, log, lift. simpl.
  destruct (fetch w _ _) as [e|v]; [reflexivity|].
  destruct (ok v); reflexivity.
Qed.

(** What a call of [getCachedEmbyConfig] can have done: nothing (a hit), one
    failed read of the store, or one read that filled the slot. *)
Lemma getCached_outcome (w : World) (s : State) :
  (∃ c, cachedEmbyConfig s = Some c ∧ getCachedEmbyConfig w s = (inr c, s))
  ∨ (∃ e, getCachedEmbyConfig w s = (inl e, logged s EvGetConfig))
  ∨ (∃ c, getCachedEmbyConfig w s
            = (inr c, {| cachedEmbyConfig := Some c; io := io s ++ [EvGetConfig] |})
          ∧ serverURL c ≠ "" ∧ apiKey c ≠ "" ∧ timestamp c = Date_now w).
Proof.
  assert (cache_miss w s ∨ ∃ c, cachedEmbyConfig s = Some c
                                ∧ Date_now w - timestamp c < 300000) as [Hm|(c & Hc & Hf)].
  { unfold cache_miss. destruct (cachedEmbyConfig s) as [c|]; [|by left; left].
    destruct (decide (Date_now w - timestamp c < 300000)); [right|left; right];
      exists c; split; [done|lia|done|lia]. }
  2:{ left. exists c. split; [done|]. by apply hit. }
  right. rewrite (miss _ _ Hm).
  destruct (getConfig w) as [err|config] eqn:Hg.
  { left. exists err. by apply reload_throws. }
  destruct (EmbyConfig config) as [e|] eqn:He.
  2:{ left. eapply reload_unusable; [done|]. by left. }
  destruct (Enabled e) eqn:En.
  2:{ left. eapply reload_unusable; [done|]. right. eauto. }
  destruct (Js.truthy (ServerURL e)) eqn:Su.
  2:{ left. eapply reload_unusable; [done|]. right. eauto. }
  destruct (Js.truthy (Js.or (ApiKey e) (AuthToken e))) eqn:Cr.
  - right. eexists. split.
    + by apply (reload_usable w (Date_now w) s config e).
    + simpl. destruct (truthy_Some _ Su) as (u & _ & Hu & ->).
      destruct (truthy_Some _ Cr) as (k & _ & Hk & ->). done.
  - left. eapply reload_unusable; [done|]. right. exists e. split; [done|].
    right. right. unfold Js.or in Cr.
    destruct (Js.truthy (ApiKey e)) eqn:Hk; [congruence|]. done.
Qed.

(** Every run of the handler, in one of five shapes. *)
Lemma GET_shapes (w : World) (request : Request) (params : Params) (s : State) :
  GET w request params s = (inr (json "未授权" None 401), s)
  ∨ GET w request params s = (inr (json "缺少 itemId 参数" None 400), s)
  ∨ (∃ e s1, getCachedEmbyConfig w s = (inl e, s1)
             ∧ GET w request params s = (inr (json "播放失败" (Some e) 500), s1))
  ∨ (∃ c s1 r, getCachedEmbyConfig w s = (inr c, s1)
               ∧ GET w request params s = (inr r, fetched s1 c request)
               ∧ status r = 500 ∧ ∃ error details, body r = JsonError error details)
  ∨ (∃ c s1 v, getCachedEmbyConfig w s = (inr c, s1)
               ∧ fetch w (embyStreamUrl c (Js.str (searchParams request !! "itemId")))
                         (requestHeaders request) = inr v
               ∧ ok v = true
               ∧ GET w request params s
                 = (inr {| status := up_status v;
                           headers := responseHeaders v params;
                           body := Stream (up_body v) |},
                    fetched s1 c request)).
Proof.
  destruct (authorized w request params) eqn:Ha.
  2:{ left. unfold authorized in Ha. apply orb_false_iff in Ha as [Ht Hs].
      by apply GET_unauthorized. }
  destruct (Js.truthy (searchParams request !! "itemId")) eqn:Hid.
  2:{ right. left. by apply GET_no_item. }
  destruct (getCachedEmbyConfig w s) as [[e|c] s1] eqn:Hc.
  { right. right. left. exists e, s1. split; [done|]. by apply GET_config_error. }
  right. right. right.
  pose proof (GET_fetch w request params s s1 c Ha Hid Hc) as HG.
  destruct (fetch w _ _) as [e|v] eqn:Hf.
  { left. exists c, s1. eexists. split; [done|]. split; [exact HG|].
    split; [reflexivity|]. by eexists _, _. }
  destruct (ok v) eqn:Hok.
  - right. exists c, s1, v. done.
  - left. exists c, s1. eexists. split; [done|]. split; [exact HG|].
    split; [reflexivity|]. by eexists _, _.
Qed.

End PlayCases.

Section PlayMore.
Import Play PlaySpec PlayView.

Lemma getCached_state (w : World) (s s1 : State) (r : Exn + CachedEmbyConfig) :
  getCachedEmbyConfig w s = (r, s1) →
  (s1 = s ∧ ∃ c, r = inr c ∧ cachedEmbyConfig s = Some c)
  ∨ (s1 = logged s EvGetConfig ∧ ∃ e, r = inl e)
  ∨ (∃ c, r = inr c
          ∧ s1 = {| cachedEmbyConfig := Some c; io := io s ++ [EvGetConfig] |}
          ∧ serverURL c ≠ "" ∧ apiKey c ≠ "").
Proof.
  intros H.
  destruct (getCached_outcome w s) as [(c & Hc & Hhit) | [(e & Hfail) | (c & Hok & Hu & Hk & _)]].
  - rewrite Hhit in H. injection H as <- <-. left. eauto.
  - rewrite Hfail in H. injection H as <- <-. right. left. eauto.
  - rewrite Hok in H. injection H as <- <-. right. right. eauto.
Qed.

Lemma ok_status (v : UpstreamResponse) :
  ok v = true → 200 <= up_status v <= 299.
Proof.
  unfold ok. intros H. apply andb_true_iff in H as [H1 H2].
  apply bool_decide_eq_true in H1, H2. lia.
Qed.

(** X1. A request answered 401 or 400 has caused no external call and has
    left the cache slot alone: the state after it is the state before. *)
Theorem refusal_touches_nothing (w : World) (request : Request) (params : Params)
    (s s' : State) (r : Response) :
  GET w request params s = (inr r, s') →
  status r = 401 ∨ status r = 400 →
  s' = s.
Proof.
  intros HG Hst.
  destruct (GET_shapes w request params s)
    as [H | [H | [(e & s1 & _ & H) | [(c & s1 & r' & _ & H & H500 & _)
                                    | (c & s1 & v & _ & _ & Hok & H)]]]];
    rewrite H in HG; injection HG as <- <-; try reflexivity; simpl in Hst.
  - lia.
  - lia.
  - apply ok_status in Hok. lia.
Qed.

Lemma refusal_touches_nothing_witness :
  (GET (Sample.play_world 0 Sample.store (Some "s3cret"))
       (Sample.play_request [] []) (Sample.play_params "s3cret") Sample.warm).2
  = Sample.warm.
Proof.
  apply (refusal_touches_nothing (Sample.play_world 0 Sample.store (Some "s3cret"))
           (Sample.play_request [] []) (Sample.play_params "s3cret") Sample.warm
           _ (json "缺少 itemId 参数" None 400)).
  - reflexivity.
  - right. reflexivity.
Defined.

(** X2. The handler always answers, and with one of two kinds of answer: a
    JSON error of status 401, 400 or 500, or the upstream body under the
    upstream status, which is then between 200 and 299.  No other upstream
    status is ever passed on. *)
Theorem answer_statuses (w : World) (request : Request) (params : Params)
    (s : State) :
  ∃ r s', GET w request params s = (inr r, s')
    ∧ (((status r = 401 ∨ status r = 400 ∨ status r = 500)
        ∧ ∃ error details, body r = JsonError error details)
       ∨ (200 <= status r <= 299 ∧ ∃ content, body r = Stream content)).
Proof.
  destruct (GET_shapes w request params s)
    as [H | [H | [(e & s1 & _ & H) | [(c & s1 & r' & _ & H & H500 & Hb)
                                    | (c & s1 & v & _ & _ & Hok & H)]]]];
    rewrite H; eexists _, _; (split; [reflexivity|]).
  - left. split; [by left|]. by eexists _, _.
  - left. split; [by right; left|]. by eexists _, _.
  - left. split; [by right; right|]. by eexists _, _.
  - left. split; [by right; right|]. done.
  - right. split; [by apply ok_status|]. by eexists.
Qed.

(** X3. One request reads the configuration store at most once and asks the
    upstream at most once, the store first; the upstream request carries no
    header other than [Range]; earlier entries of the trace stay. *)
Theorem one_read_then_one_fetch (w : World) (request : Request) (params : Params)
    (s : State) :
  ∃ r s' events,
    GET w request params s = (r, s')
    ∧ io s' = io s ++ events
    ∧ (events = [] ∨ events = [EvGetConfig]
       ∨ ∃ url sent, only_Range sent
                     ∧ (events = [EvFetch url sent]
                        ∨ events = [EvGetConfig; EvFetch url sent])).
Proof.
  destruct (GET_shapes w request params s)
    as [H | [H | [(e & s1 & Hc & H) | [(c & s1 & r' & Hc & H & _)
                                     | (c & s1 & v & Hc & _ & _ & H)]]]];
    rewrite H.
  - eexists _, _, []. split; [done|]. split; [by rewrite app_nil_r | by left].
  - eexists _, _, []. split; [done|]. split; [by rewrite app_nil_r | by left].
  - apply getCached_state in Hc as [[-> (? & [=] & _)] | [[-> _] | (? & [=] & _)]].
    eexists _, _, [EvGetConfig]. split; [done|]. split; [done | by right; left].
  - apply getCached_state in Hc as [[-> _] | [[_ (? & [=])] | (? & _ & -> & _)]].
    + eexists _, _, [_]. split; [done|]. split; [done|]. right. right.
      eexists _, _. split; [apply requestHeaders_only_Range | by left].
    + eexists _, _, [_; _]. split; [done|]. split; [simpl; by rewrite <- app_assoc|].
      right. right. eexists _, _. split; [apply requestHeaders_only_Range | by right].
  - apply getCached_state in Hc as [[-> _] | [[_ (? & [=])] | (? & _ & -> & _)]].
    + eexists _, _, [_]. split; [done|]. split; [done|]. right. right.
      eexists _, _. split; [apply requestHeaders_only_Range | by left].
    + eexists _, _, [_; _]. split; [done|]. split; [simpl; by rewrite <- app_assoc|].
      right. right. eexists _, _. split; [apply requestHeaders_only_Range | by right].
Qed.

(** X4. If the slot is empty or holds an entry with a non-empty server URL
    and a non-empty credential, the same is true after any request. *)
Theorem slot_stays_usable (w : World) (request : Request) (params : Params)
    (s s' : State) (r : Exn + Response) :
  slot_usable s →
  GET w request params s = (r, s') →
  slot_usable s'.
Proof.
  intros Hinv HG.
  assert (∀ x s1, getCachedEmbyConfig w s = (x, s1) → slot_usable s1) as Hget.
  { intros x s1 Hc.
    apply getCached_state in Hc as [[-> _] | [[-> _] | (c & _ & -> & Hu & Hk)]];
      try exact Hinv.
    intros c' [= <-]. done. }
  destruct (GET_shapes w request params s)
    as [H | [H | [(e & s1 & Hc & H) | [(c & s1 & r' & Hc & H & _)
                                     | (c & s1 & v & Hc & _ & _ & H)]]]];
    rewrite H in HG; injection HG as <- <-; eauto.
  - exact (Hget _ _ Hc).
  - exact (Hget _ _ Hc).
Qed.

Lemma slot_stays_usable_witness :
  slot_usable
    (GET (Sample.play_world 1700000300000 Sample.store (Some "s3cret"))
         (Sample.play_request [("itemId", "42")] []) (Sample.play_params "s3cret")
         Sample.warm).2.
Proof.
  apply (slot_stays_usable (Sample.play_world 1700000300000 Sample.store (Some "s3cret"))
           (Sample.play_request [("itemId", "42")] []) (Sample.play_params "s3cret")
           Sample.warm _
           (GET (Sample.play_world 1700000300000 Sample.store (Some "s3cret"))
                (Sample.play_request [("itemId", "42")] [])
                (Sample.play_params "s3cret") Sample.warm).1).
  - intros c [= <-]. split; discriminate.
  - reflexivity.
Defined.

End PlayMore.

Section PlayErrors.
Import Play PlaySpec PlayView.

Lemma reload_unusable_message (w : World) (now : Z) (s : State) (config : AdminConfig) :
  getConfig w = inr config →
  unusable config →
  ∃ e, reloadEmbyConfig w now s = (inl e, logged s EvGetConfig)
       ∧ (e = "Emby 未配置或未启用" ∨ e = "Emby 认证信息缺失").
Proof.
  intros H Hbad. unfold reloadEmbyConfig, await_getConfig, bind, log, lift.
  rewrite H. simpl.
  destruct Hbad as [-> | (e & -> & Hbad)]; [eexists; split; [reflexivity | by left]|].
  destruct (Enabled e) eqn:En; simpl; [|eexists; split; [reflexivity | by left]].
  destruct (Js.truthy (ServerURL e)) eqn:Su; simpl;
    [|eexists; split; [reflexivity | by left]].
  destruct Hbad as [?|[?|[Hk Ht]]]; try discriminate.
  unfold Js.or. rewrite Hk, Ht. simpl. eexists; split; [reflexivity | by right].
Qed.

(** X5. When an authorised request for an item has to reload the
    configuration and the store holds none that can be used, the answer is a
    500 whose [details] is the message of the error, one of the two messages
    of the loader; the store was read once and the upstream was not asked. *)
Theorem unusable_config_is_500 (w : World) (request : Request) (params : Params)
    (s : State) (config : AdminConfig) :
  authorized w request params = true →
  Js.truthy (searchParams request !! "itemId") = true →
  cache_miss w s →
  getConfig w = inr config →
  unusable config →
  ∃ e, GET w request params s
         = (inr (json "播放失败" (Some e) 500), logged s EvGetConfig)
       ∧ (e = "Emby 未配置或未启用" ∨ e = "Emby 认证信息缺失").
Proof.
  intros Ha Hid Hmiss Hg Hbad.
  destruct (reload_unusable_message w (Date_now w) s config Hg Hbad) as (e & He & Hmsg).
  exists e. split; [|exact Hmsg].
  apply GET_config_error; [done|done|]. by rewrite (miss _ _ Hmiss).
Qed.

Lemma unusable_config_is_500_witness :
  ∃ e, GET (Sample.play_world 5 Sample.disabled (Some "s3cret"))
           (Sample.play_request [("itemId", "42")] []) (Sample.play_params "s3cret")
           Sample.cold
         = (inr (json "播放失败" (Some e) 500), logged Sample.cold EvGetConfig)
       ∧ (e = "Emby 未配置或未启用" ∨ e = "Emby 认证信息缺失").
Proof.
  apply (unusable_config_is_500 (Sample.play_world 5 Sample.disabled (Some "s3cret"))
           (Sample.play_request [("itemId", "42")] []) (Sample.play_params "s3cret")
           Sample.cold Sample.disabled).
  - reflexivity.
  - reflexivity.
  - left. reflexivity.
  - reflexivity.
  - right. eexists. split; [reflexivity|]. left. reflexivity.
Defined.

(** X6. Once the configuration is resolved, a failure of the upstream
    request is answered 500: with the error message as [details] when the
    request itself throws, and with a fixed message, no [details] and nothing
    of the upstream answer when the upstream status is outside 200-299. *)
Theorem upstream_failure_is_500 (w : World) (request : Request) (params : Params)
    (s s1 : State) (c : CachedEmbyConfig) :
  authorized w request params = true →
  Js.truthy (searchParams request !! "itemId") = true →
  getCachedEmbyConfig w s = (inr c, s1) →
  let url := embyStreamUrl c (Js.str (searchParams request !! "itemId")) in
  (∀ e, fetch w url (requestHeaders request) = inl e →
        GET w request params s
          = (inr (json "播放失败" (Some e) 500), fetched s1 c request))
  ∧ (∀ v, fetch w url (requestHeaders request) = inr v →
          ¬ (200 <= up_status v <= 299) →
          GET w request params s
            = (inr (json "获取视频流失败" None 500), fetched s1 c request)).
Proof.
  intros Ha Hid Hc url. rewrite (GET_fetch w request params s s1 c Ha Hid Hc).
  fold url. split.
  - intros e ->. reflexivity.
  - intros v -> Hst.
    assert (ok v = false) as ->; [|reflexivity].
    unfold ok. apply andb_false_iff.
    destruct (decide (200 <= up_status v)); [right | left];
      apply bool_decide_eq_false; lia.
Qed.

End PlayErrors.

Section PlayRelay.
Import Play PlaySpec PlayView.

Lemma upstream_failure_is_500_witness :
  let request := Sample.play_request [("itemId", "42")] [] in
  let c := {| serverURL := "http://emby.lan:8096"; apiKey := "k-123"; timestamp := 7 |} in
  let s1 := {| cachedEmbyConfig := Some c; io := [EvGetConfig] |} in
  GET (PlaySample.world_with 7 Sample.store (Some "s3cret") (inl "fetch failed"))
      request (Sample.play_params "s3cret") Sample.cold
    = (inr (json "播放失败" (Some "fetch failed") 500), fetched s1 c request)
  ∧ GET (PlaySample.world_with 7 Sample.store (Some "s3cret")
           (inr (PlaySample.answer 416 [])))
        request (Sample.play_params "s3cret") Sample.cold
    = (inr (json "获取视频流失败" None 500), fetched s1 c request).
Proof.
  intros request c s1. split.
  - destruct (upstream_failure_is_500
                (PlaySample.world_with 7 Sample.store (Some "s3cret") (inl "fetch failed"))
                request (Sample.play_params "s3cret") Sample.cold s1 c
                eq_refl eq_refl eq_refl) as [Hthrow _].
    apply (Hthrow "fetch failed"). reflexivity.
  - destruct (upstream_failure_is_500
                (PlaySample.world_with 7 Sample.store (Some "s3cret")
                   (inr (PlaySample.answer 416 [])))
                request (Sample.play_params "s3cret") Sample.cold s1 c
                eq_refl eq_refl eq_refl) as [_ Hstatus].
    apply (Hstatus (PlaySample.answer 416 [])); [reflexivity | simpl; lia].
Defined.

Ltac in_list :=
  intros _; repeat first [apply list_elem_of_here | apply list_elem_of_further].

Lemma copy_header_lookup (from : gmap string string) (name out : string)
    (to : gmap string string) (key : string) :
  copy_header from name out to !! key =
    if bool_decide (key = out) && Js.truthy (from !! name)
    then from !! name else to !! key.
Proof.
  unfold copy_header. destruct (Js.truthy (from !! name)) eqn:Ht.
  - destruct (truthy_Some _ Ht) as (v & Hv & _ & Hs). rewrite Hs, Hv.
    case_bool_decide as Hk; simpl.
    + subst key. by rewrite lookup_insert_eq.
    + by rewrite lookup_insert_ne.
  - by rewrite andb_false_r.
Qed.

Lemma or_str_nonempty (a : option string) (b : string) :
  b ≠ "" → Js.or_str a b ≠ "".
Proof.
  intros Hb. unfold Js.or_str. destruct a as [v|]; [|done].
  by case_bool_decide.
Qed.

(** X7. The headers of a relayed answer.  [Content-Type] is always there and
    never empty: the upstream value, or [video/mp4] when the upstream gives
    none or an empty one.  [Content-Length], [Accept-Ranges] and
    [Content-Range] are there exactly when the upstream gives a non-empty
    value, which is copied unchanged.  [Content-Disposition] is always there.
    No other header is set, whatever the upstream sends. *)
Theorem relayed_headers (v : UpstreamResponse) (params : Params) :
  let h := responseHeaders v params in
  (∃ t, h !! "Content-Type" = Some t ∧ t ≠ ""
        ∧ (Js.truthy (up_headers v !! "content-type") = true →
           up_headers v !! "content-type" = Some t)
        ∧ (Js.truthy (up_headers v !! "content-type") = false → t = "video/mp4"))
  ∧ (∀ x, h !! "Content-Length" = Some x
          ↔ up_headers v !! "content-length" = Some x ∧ x ≠ "")
  ∧ (∀ x, h !! "Accept-Ranges" = Some x
          ↔ up_headers v !! "accept-ranges" = Some x ∧ x ≠ "")
  ∧ (∀ x, h !! "Content-Range" = Some x
          ↔ up_headers v !! "content-range" = Some x ∧ x ≠ "")
  ∧ is_Some (h !! "Content-Disposition")
  ∧ ∀ name, is_Some (h !! name) → name ∈ relayed.
Proof.
  intros h. subst h. unfold responseHeaders.
  assert (∀ o : option string, ∀ x,
            (if Js.truthy o then o else None) = Some x ↔ o = Some x ∧ x ≠ "") as Hcopy.
  { intros [y|] x; simpl.
    - case_bool_decide as Hy; simpl.
      + split; [discriminate|]. intros [[= ->] Hne]. done.
      + split; [intros [= ->]; done | tauto].
    - split; [discriminate|]. intros [? _]. discriminate. }
  split; [|split; [|split; [|split; [|split]]]].
  - eexists. split; [|split; [|split]].
    + rewrite lookup_insert_ne by done. rewrite !copy_header_lookup. simpl.
      by rewrite lookup_insert_eq.
    + by apply or_str_nonempty.
    + intros Ht. destruct (truthy_Some _ Ht) as (t & Hv & Hne & _).
      rewrite Hv. simpl. by rewrite bool_decide_eq_false_2.
    + unfold Js.or_str. destruct (up_headers v !! "content-type") as [t|]; [|done].
      simpl. by case_bool_decide.
  - intros x. rewrite lookup_insert_ne by done. rewrite !copy_header_lookup. simpl.
    rewrite lookup_insert_ne by done. rewrite lookup_empty.
    rewrite <- Hcopy. by destruct (Js.truthy _).
  - intros x. rewrite lookup_insert_ne by done. rewrite !copy_header_lookup. simpl.
    rewrite lookup_insert_ne by done. rewrite lookup_empty.
    rewrite <- Hcopy. by destruct (Js.truthy _).
  - intros x. rewrite lookup_insert_ne by done. rewrite !copy_header_lookup. simpl.
    rewrite lookup_insert_ne by done. rewrite lookup_empty.
    rewrite <- Hcopy. by destruct (Js.truthy _).
  - rewrite lookup_insert_eq. by eexists.
  - intros name. unfold relayed.
    destruct (decide (name = "Content-Disposition")) as [->|H1]; [in_list|].
    rewrite lookup_insert_ne by done. rewrite !copy_header_lookup.
    destruct (decide (name = "Content-Range")) as [->|H2]; [in_list|].
    destruct (decide (name = "Accept-Ranges")) as [->|H3]; [in_list|].
    destruct (decide (name = "Content-Length")) as [->|H4]; [in_list|].
    rewrite !bool_decide_eq_false_2 by done. simpl.
    destruct (decide (name = "Content-Type")) as [->|H5]; [in_list|].
    rewrite lookup_insert_ne by done. rewrite lookup_empty. by intros [? ?].
Qed.

(** X8. An answer that carries a stream is the upstream answer to the one
    request made: same status, same body, headers as [responseHeaders] builds
    them for the file name of the request. *)
Theorem relay_is_verbatim (w : World) (request : Request) (params : Params)
    (s s' : State) (r : Response) (content : string) :
  GET w request params s = (inr r, s') →
  body r = Stream content →
  ∃ c s1 v,
    getCachedEmbyConfig w s = (inr c, s1)
    ∧ fetch w (embyStreamUrl c (Js.str (searchParams request !! "itemId")))
              (requestHeaders request) = inr v
    ∧ s' = fetched s1 c request
    ∧ status r = up_status v
    ∧ content = up_body v
    ∧ headers r = responseHeaders v params.
Proof.
  intros HG Hb.
  destruct (GET_shapes w request params s)
    as [H | [H | [(e & s1 & _ & H) | [(c & s1 & r' & _ & H & _ & (er & de & Hj))
                                    | (c & s1 & v & Hc & Hf & _ & H)]]]];
    rewrite H in HG; injection HG as <- <-; try discriminate Hb.
  - congruence.
  - injection Hb as <-. by exists c, s1, v.
Qed.

Lemma relay_is_verbatim_witness :
  let w := Sample.play_world 1700000000000 Sample.store (Some "s3cret") in
  let request := Sample.play_request [("itemId", "42")] [("range", "bytes=0-99")] in
  ∃ c s1 v,
    getCachedEmbyConfig w Sample.cold = (inr c, s1)
    ∧ fetch w (embyStreamUrl c (Js.str (searchParams request !! "itemId")))
              (requestHeaders request) = inr v
    ∧ (GET w request (Sample.play_params "s3cret") Sample.cold).2 = fetched s1 c request
    ∧ 206 = up_status v
    ∧ "..." = up_body v.
Proof.
  intros w request.
  destruct (relay_is_verbatim w request (Sample.play_params "s3cret") Sample.cold
              (GET w request (Sample.play_params "s3cret") Sample.cold).2
              {| status := 206;
                 headers := responseHeaders
                              {| up_status := 206; up_statusText := "OK";
                                 up_headers := {[ "content-type" := "video/x-matroska" ]};
                                 up_body := "..." |}
                              (Sample.play_params "s3cret");
                 body := Stream "..." |}
              "..." eq_refl eq_refl)
    as (c & s1 & v & Hc & Hf & Hs & Hst & Hb & _).
  exists c, s1, v. done.
Defined.

(** X9. While the cached entry is younger than 300000 ms, an authorised
    request for an item makes exactly one external call, the upstream request
    built from the cached entry; the store is not read, whatever it holds,
    and the slot keeps its entry. *)
Theorem warm_request (w : World) (request : Request) (params : Params)
    (s : State) (c : CachedEmbyConfig) :
  cachedEmbyConfig s = Some c →
  Date_now w - timestamp c < 300000 →
  authorized w request params = true →
  Js.truthy (searchParams request !! "itemId") = true →
  ∃ r, GET w request params s = (inr r, fetched s c request)
       ∧ cachedEmbyConfig (fetched s c request) = Some c
       ∧ io (fetched s c request)
         = io s ++ [EvFetch (serverURL c +:+ "/Videos/"
                               +:+ Js.str (searchParams request !! "itemId")
                               +:+ "/stream?Static=true&api_key=" +:+ apiKey c)
                            (requestHeaders request)].
Proof.
  intros Hc Hfresh Ha Hid.
  rewrite (GET_fetch w request params s s c Ha Hid (hit w s c Hc Hfresh)).
  eexists. split; [reflexivity|]. split; [exact Hc | reflexivity].
Qed.

Lemma warm_request_witness :
  let w := Sample.play_world 1700000299999 Sample.disabled (Some "s3cret") in
  let request := Sample.play_request [("itemId", "42")] [] in
  ∃ r, GET w request (Sample.play_params "s3cret") Sample.warm
         = (inr r, fetched Sample.warm Sample.entry request)
       ∧ cachedEmbyConfig (fetched Sample.warm Sample.entry request) = Some Sample.entry
       ∧ io (fetched Sample.warm Sample.entry request)
         = [EvFetch "http://emby.lan:8096/Videos/42/stream?Static=true&api_key=k-123" ∅].
Proof.
  intros w request.
  apply (warm_request w request (Sample.play_params "s3cret") Sample.warm Sample.entry).
  - reflexivity.
  - simpl. lia.
  - reflexivity.
  - reflexivity.
Defined.

Lemma second_call_within_ttl_witness :
  let w1 := Sample.play_world 1700000000000 Sample.store None in
  let w2 := Sample.play_world 1700000299999 Sample.disabled None in
  let c := {| serverURL := "http://emby.lan:8096"; apiKey := "k-123";
              timestamp := 1700000000000 |} in
  let s1 := {| cachedEmbyConfig := Some c; io := [EvGetConfig] |} in
  getCachedEmbyConfig w2 s1 = (inr c, s1).
Proof.
  intros w1 w2 c s1.
  apply (second_call_within_ttl w1 w2 Sample.cold s1 c).
  - left. reflexivity.
  - reflexivity.
  - simpl. lia.
Defined.

End PlayRelay.

(** ** The CMS proxy, case by case *)

Section CmsCases.
Import CmsProxy CmsSpec CmsView.

(** The handler once [ac] is supported and the token accepted. *)
Lemma GET_accepted (w : World) (request : Request) (params : Params) :
  supported (searchParams request !! "ac") = true →
  accepted w params →
  GET w request params =
    match
      (config <- getConfig w ;;
       match EmbyConfig config with
       | None => inr (empty_list 0 "Emby 未配置或未启用")
       | Some embyConfig =>
           if negb (Enabled embyConfig) || negb (Js.truthy (ServerURL embyConfig))
           then inr (empty_list 0 "Emby 未配置或未启用")
           else
             let client := newEmbyClient w embyConfig in
             userId <- resolveUserId client embyConfig ;;
             if negb (Js.truthy userId) then inr (empty_list 0 "Emby 认证失败")
             else
               let ac := searchParams request !! "ac" in
               let wd := searchParams request !! "wd" in
               let ids := searchParams request !! "ids" in
               if Js.truthy wd then
                 if bool_decide (ac = Some "detail")
                 then handleDetailBySearch w client (Js.str wd) (token params) request
                 else handleSearch client (Js.str wd)
               else if Js.truthy ids || bool_decide (ac = Some "detail") then
                 if negb (Js.truthy ids) then inr (empty_list 0 "缺少视频ID")
                 else handleDetail w client (Js.str ids) (token params) request
               else handleSearch client ""
       end)
    with
    | inr response => response
    | inl error => empty_list 500 error
    end.
Proof.
  intros Hac [Ht Heq]. unfold GET. rewrite Hac, Ht. simpl.
  rewrite (bool_decide_eq_false_2 (Some (token params) ≠ TVBOX_SUBSCRIBE_TOKEN w))
    by (intros Hne; by apply Hne).
  reflexivity.
Qed.

(** The handler once, further, the configuration is usable and a user id is
    at hand: the routing on [wd], [ids] and [ac]. *)
Lemma GET_routed (w : World) (request : Request) (params : Params)
    (embyConfig : EmbyConfigT) (userId : option string) :
  supported (searchParams request !! "ac") = true →
  accepted w params →
  configured w embyConfig →
  resolveUserId (newEmbyClient w embyConfig) embyConfig = inr userId →
  Js.truthy userId = true →
  GET w request params =
    match
      (let client := newEmbyClient w embyConfig in
       let ac := searchParams request !! "ac" in
       let wd := searchParams request !! "wd" in
       let ids := searchParams request !! "ids" in
       if Js.truthy wd then
         if bool_decide (ac = Some "detail")
         then handleDetailBySearch w client (Js.str wd) (token params) request
         else handleSearch client (Js.str wd)
       else if Js.truthy ids || bool_decide (ac = Some "detail") then
         if negb (Js.truthy ids) then inr (empty_list 0 "缺少视频ID")
         else handleDetail w client (Js.str ids) (token params) request
       else handleSearch client "")
    with
    | inr response => response
    | inl error => empty_list 500 error
    end.
Proof.
  intros Hac Hacc (config & Hg & He & En & Su) Hu Hut.
  rewrite (GET_accepted _ _ _ Hac Hacc). unfold bind at 1. rewrite Hg, He, En, Su.
  simpl. unfold bind at 1. rewrite Hu, Hut. reflexivity.
Qed.

(** A configuration that already names the user needs no authentication. *)
Lemma resolveUserId_known (client : EmbyClient) (embyConfig : EmbyConfigT) :
  Js.truthy (UserId embyConfig) = true →
  resolveUserId client embyConfig = inr (UserId embyConfig).
Proof. intros H. unfold resolveUserId. rewrite H. reflexivity. Qed.

Lemma empty_list_answer (c : Z) (msg : string) :
  c = 0 ∨ c = 401 ∨ c = 500 → list_answer (empty_list c msg).
Proof.
  intros Hc. split; [reflexivity|]. exists c, msg, 0, []. split; [reflexivity|].
  by right.
Qed.

Lemma handleSearch_answer (client : EmbyClient) (query : string) (r : Response) :
  handleSearch client query = inr r → list_answer r.
Proof.
  unfold handleSearch, bind. destruct (getItems client _) as [e|items]; [done|].
  intros [= <-]. split; [reflexivity|]. eexists 1, _, 1, _.
  split; [reflexivity | by left].
Qed.

Lemma handleDetail_answer (w : World) (client : EmbyClient) (itemId token : string)
    (request : Request) (r : Response) :
  handleDetail w client itemId token request = inr r → list_answer r.
Proof.
  unfold handleDetail, bind. destruct (getItem client itemId) as [e|item]; [done|].
  destruct (if bool_decide (Type_ item = "Movie") then _ else _) as [e|url]; [done|].
  intros [= <-]. split; [reflexivity|]. eexists 1, _, 1, [_].
  split; [reflexivity | by left].
Qed.

Lemma handleDetailBySearch_answer (w : World) (client : EmbyClient)
    (query token : string) (request : Request) (r : Response) :
  handleDetailBySearch w client query token request = inr r → list_answer r.
Proof.
  unfold handleDetailBySearch, bind.
  destruct (getItems client _) as [e|[|first rest]]; [done| |].
  - intros [= <-]. apply empty_list_answer. by left.
  - apply handleDetail_answer.
Qed.

Lemma GET_list_answer (w : World) (request : Request) (params : Params) :
  supported (searchParams request !! "ac") = true →
  list_answer (GET w request params).
Proof.
  intros Hac. unfold GET. rewrite Hac. simpl.
  destruct (negb _ || bool_decide _); [apply empty_list_answer; auto|].
  unfold bind at 1.
  destruct (getConfig w) as [e|config]; [apply empty_list_answer; auto|].
  destruct (EmbyConfig config) as [embyConfig|]; [|apply empty_list_answer; auto].
  destruct (negb _ || negb _); [apply empty_list_answer; auto|].
  unfold bind at 1.
  destruct (resolveUserId _ embyConfig) as [e|userId]; [apply empty_list_answer; auto|].
  destruct (negb (Js.truthy userId)); [apply empty_list_answer; auto|].
  repeat match goal with
         | |- context [if ?b then _ else _] => destruct b
         end;
    cbv beta iota; try (apply empty_list_answer; auto);
    match goal with
    | |- context [match ?h with inl _ => _ | inr _ => _ end] =>
        destruct h as [e|r] eqn:Hh; [apply empty_list_answer; auto|]
    end;
    eauto using handleSearch_answer, handleDetail_answer,
      handleDetailBySearch_answer.
Qed.

(** X11. The HTTP status of the CMS proxy is 400 exactly for an unsupported
    [ac] and 200 for everything else: a rejected token, a missing
    configuration and a caught error are all answered with HTTP 200. *)
Theorem http_status_by_ac (w : World) (request : Request) (params : Params) :
  status (GET w request params)
  = if supported (searchParams request !! "ac") then 200 else 400.
Proof.
  destruct (supported (searchParams request !! "ac")) eqn:Hac.
  - by destruct (GET_list_answer w request params Hac) as [Hst _].
  - by rewrite (GET_unsupported _ _ _ Hac).
Qed.

(** X12. Every answer to a supported [ac] has [page] 1 and a [code] among 1,
    0, 401 and 500.  With code 1 [pagecount] is 1; with any other code
    [pagecount], [limit] and [total] are 0 and the list is empty. *)
Theorem answer_codes (w : World) (request : Request) (params : Params) :
  supported (searchParams request !! "ac") = true →
  ∃ c msg pagecount limit total l,
    body (GET w request params) = VodList c msg 1 pagecount limit total l
    ∧ ((c = 1 ∧ pagecount = 1)
       ∨ ((c = 0 ∨ c = 401 ∨ c = 500)
          ∧ pagecount = 0 ∧ limit = 0 ∧ total = 0 ∧ l = [])).
Proof.
  intros Hac.
  destruct (GET_list_answer w request params Hac) as (_ & c & msg & pc & l & Hb & Hc).
  exists c, msg, pc, (Z.of_nat (length l)), (Z.of_nat (length l)), l.
  split; [exact Hb|]. destruct Hc as [Hc | (Hc & Hp & ->)]; [by left|].
  right. done.
Qed.

Lemma answer_codes_witness :
  ∃ c msg pagecount limit total l,
    body (GET (CmsSample.world (Some "s3cret") [])
              (CmsSample.request [("ac", "detail")]) (CmsSample.params "s3cret"))
      = VodList c msg 1 pagecount limit total l
    ∧ ((c = 1 ∧ pagecount = 1)
       ∨ ((c = 0 ∨ c = 401 ∨ c = 500)
          ∧ pagecount = 0 ∧ limit = 0 ∧ total = 0 ∧ l = [])).
Proof.
  apply (answer_codes (CmsSample.world (Some "s3cret") [])
           (CmsSample.request [("ac", "detail")]) (CmsSample.params "s3cret")).
  reflexivity.
Defined.

End CmsCases.

Section CmsErrors.
Import CmsProxy CmsSpec CmsView CmsReady.

Lemma GET_ready (w : World) (request : Request) (params : Params)
    (embyConfig : EmbyConfigT) :
  supported (searchParams request !! "ac") = true →
  ready w params embyConfig →
  GET w request params =
    answer
      (let client := newEmbyClient w embyConfig in
       let ac := searchParams request !! "ac" in
       let wd := searchParams request !! "wd" in
       let ids := searchParams request !! "ids" in
       if Js.truthy wd then
         if bool_decide (ac = Some "detail")
         then handleDetailBySearch w client (Js.str wd) (token params) request
         else handleSearch client (Js.str wd)
       else if Js.truthy ids || bool_decide (ac = Some "detail") then
         if negb (Js.truthy ids) then inr (empty_list 0 "缺少视频ID")
         else handleDetail w client (Js.str ids) (token params) request
       else handleSearch client "").
Proof.
  intros Hac (Hacc & Hconf & Hu).
  apply (GET_routed w request params embyConfig (UserId embyConfig)); try done.
  by apply resolveUserId_known.
Qed.

(** X13. With the token accepted, an error thrown by the configuration
    store, or by the authentication that a configuration without user id
    but with a login calls for, is answered with code 500 and the message of
    the error as [msg], under HTTP 200. *)
Theorem early_error_is_code_500 (w : World) (request : Request) (params : Params)
    (e : Exn) :
  supported (searchParams request !! "ac") = true →
  accepted w params →
  getConfig w = inl e
  ∨ (∃ embyConfig, configured w embyConfig
       ∧ Js.truthy (UserId embyConfig) = false
       ∧ Js.truthy (Username embyConfig) = true
       ∧ Js.truthy (Password embyConfig) = true
       ∧ authenticate (newEmbyClient w embyConfig)
           (Js.str (Username embyConfig)) (Js.str (Password embyConfig)) = inl e) →
  GET w request params = json (VodList 500 e 1 0 0 0 []).
Proof.
  intros Hac Hacc Herr. rewrite (GET_accepted _ _ _ Hac Hacc). unfold bind at 1.
  destruct Herr as [-> | (ec & (config & -> & -> & -> & ->) & Hu & Hn & Hp & Ha)];
    [reflexivity|].
  simpl. unfold bind at 1, resolveUserId. rewrite Hu, Hn, Hp. simpl.
  unfold bind. rewrite Ha. reflexivity.
Qed.

Lemma early_error_is_code_500_witness :
  GET (CmsSample2.world_with (inl "database is locked") (inr []) [])
      (CmsSample.request [("ac", "list")]) (CmsSample.params "s3cret")
    = json (VodList 500 "database is locked" 1 0 0 0 [])
  ∧ GET (CmsSample2.world_with (inr CmsSample2.login_store) (inr []) [])
        (CmsSample.request [("ac", "list")]) (CmsSample.params "s3cret")
    = json (VodList 500 "authentication failed" 1 0 0 0 []).
Proof.
  split.
  - apply (early_error_is_code_500
             (CmsSample2.world_with (inl "database is locked") (inr []) [])
             (CmsSample.request [("ac", "list")]) (CmsSample.params "s3cret")
             "database is locked"); [reflexivity | by split | by left].
  - apply (early_error_is_code_500
             (CmsSample2.world_with (inr CmsSample2.login_store) (inr []) [])
             (CmsSample.request [("ac", "list")]) (CmsSample.params "s3cret")
             "authentication failed"); [reflexivity | by split |].
    right. exists (default Sample.embyConfig (EmbyConfig CmsSample2.login_store)).
    split; [|by repeat split].
    eexists. by repeat split.
Defined.

(** X14. On a detail request by id, an error thrown by the item lookup, or
    by the episode lookup of a series, is answered with code 500 and the
    message of the error as [msg]. *)
Theorem lookup_error_is_code_500 (w : World) (request : Request) (params : Params)
    (embyConfig : EmbyConfigT) (e : Exn) :
  supported (searchParams request !! "ac") = true →
  ready w params embyConfig →
  Js.truthy (searchParams request !! "wd") = false →
  Js.truthy (searchParams request !! "ids") = true →
  let client := newEmbyClient w embyConfig in
  let ids := Js.str (searchParams request !! "ids") in
  getItem client ids = inl e
  ∨ (∃ item, getItem client ids = inr item ∧ Type_ item = "Series"
             ∧ getEpisodes client ids = inl e) →
  GET w request params = json (VodList 500 e 1 0 0 0 []).
Proof.
  intros Hac Hready Hwd Hids client ids Herr.
  rewrite (GET_ready _ _ _ _ Hac Hready). simpl. rewrite Hwd, Hids. simpl.
  unfold handleDetail, bind. fold client. fold ids.
  destruct Herr as [-> | (item & -> & Hty & Hep)]; [reflexivity|].
  rewrite Hty. simpl. rewrite Hep. reflexivity.
Qed.

Lemma lookup_error_is_code_500_witness :
  GET (CmsSample2.world_with (inr Sample.store) (inr []) [])
      (CmsSample.request [("ac", "detail"); ("ids", "zz")]) (CmsSample.params "s3cret")
    = json (VodList 500 "item not found" 1 0 0 0 [])
  ∧ GET (CmsSample2.world_with (inr Sample.store) (inl "timeout") [])
        (CmsSample.request [("ac", "detail"); ("ids", "s1")]) (CmsSample.params "s3cret")
    = json (VodList 500 "timeout" 1 0 0 0 []).
Proof.
  split.
  - apply (lookup_error_is_code_500
             (CmsSample2.world_with (inr Sample.store) (inr []) [])
             (CmsSample.request [("ac", "detail"); ("ids", "zz")])
             (CmsSample.params "s3cret") Sample.embyConfig "item not found");
      try reflexivity.
    + split; [by split|]. split; [|reflexivity]. eexists. by repeat split.
    + by left.
  - apply (lookup_error_is_code_500
             (CmsSample2.world_with (inr Sample.store) (inl "timeout") [])
             (CmsSample.request [("ac", "detail"); ("ids", "s1")])
             (CmsSample.params "s3cret") Sample.embyConfig "timeout");
      try reflexivity.
    + split; [by split|]. split; [|reflexivity]. eexists. by repeat split.
    + right. eexists. by repeat split.
Defined.

(** X15. With the token accepted and the configuration usable, a request is
    answered with code 0 and the message of failed authentication when the
    configuration names no user and has no complete login, or when the
    authentication returns an empty user id. *)
Theorem no_user_is_code_0 (w : World) (request : Request) (params : Params)
    (embyConfig : EmbyConfigT) :
  supported (searchParams request !! "ac") = true →
  accepted w params →
  configured w embyConfig →
  Js.truthy (UserId embyConfig) = false →
  Js.truthy (Username embyConfig) = false
  ∨ Js.truthy (Password embyConfig) = false
  ∨ authenticate (newEmbyClient w embyConfig)
      (Js.str (Username embyConfig)) (Js.str (Password embyConfig)) = inr "" →
  GET w request params = json (VodList 0 "Emby 认证失败" 1 0 0 0 []).
Proof.
  intros Hac Hacc (config & Hg & He & En & Su) Hu Hno.
  rewrite (GET_accepted _ _ _ Hac Hacc). unfold bind at 1. rewrite Hg, He, En, Su.
  simpl. unfold bind at 1, resolveUserId. rewrite Hu. simpl.
  destruct (Js.truthy (Username embyConfig)) eqn:Hn; simpl.
  2:{ rewrite Hu. reflexivity. }
  destruct (Js.truthy (Password embyConfig)) eqn:Hp; simpl.
  2:{ rewrite Hu. reflexivity. }
  destruct Hno as [? | [? | Ha]]; try discriminate.
  unfold bind. rewrite Ha. reflexivity.
Qed.

Lemma no_user_is_code_0_witness :
  GET (CmsSample2.world_with (inr CmsSample2.anonymous_store) (inr []) [])
      (CmsSample.request [("ac", "list")]) (CmsSample.params "s3cret")
    = json (VodList 0 "Emby 认证失败" 1 0 0 0 []).
Proof.
  apply (no_user_is_code_0
           (CmsSample2.world_with (inr CmsSample2.anonymous_store) (inr []) [])
           (CmsSample.request [("ac", "list")]) (CmsSample.params "s3cret")
           (default Sample.embyConfig (EmbyConfig CmsSample2.anonymous_store)));
    try reflexivity.
  - by split.
  - eexists. by repeat split.
  - by left.
Defined.

(** X16. With the token accepted, a store without Emby configuration, with
    a disabled one or with one that lacks the server URL is answered with
    code 0 and an empty list.  Credentials are not looked at here. *)
Theorem unconfigured_is_code_0 (w : World) (request : Request) (params : Params)
    (config : AdminConfig) :
  supported (searchParams request !! "ac") = true →
  accepted w params →
  getConfig w = inr config →
  EmbyConfig config = None
  ∨ (∃ embyConfig, EmbyConfig config = Some embyConfig
       ∧ (Enabled embyConfig = false ∨ Js.truthy (ServerURL embyConfig) = false)) →
  GET w request params = json (VodList 0 "Emby 未配置或未启用" 1 0 0 0 []).
Proof.
  intros Hac Hacc Hg Hbad. rewrite (GET_accepted _ _ _ Hac Hacc). unfold bind at 1.
  rewrite Hg. destruct Hbad as [-> | (ec & -> & [-> | Hs])]; [reflexivity..|].
  rewrite Hs. by destruct (Enabled ec).
Qed.

Lemma unconfigured_is_code_0_witness :
  GET (CmsSample2.world_with (inr Sample.disabled) (inr []) [])
      (CmsSample.request [("ac", "videolist")]) (CmsSample.params "s3cret")
    = json (VodList 0 "Emby 未配置或未启用" 1 0 0 0 []).
Proof.
  apply (unconfigured_is_code_0
           (CmsSample2.world_with (inr Sample.disabled) (inr []) [])
           (CmsSample.request [("ac", "videolist")]) (CmsSample.params "s3cret")
           Sample.disabled); try reflexivity.
  - by split.
  - right. eexists. split; [reflexivity|]. by left.
Defined.

(** X17. A ready request without usable search word gets code 0 and an
    empty list, under HTTP 200, in two cases: [ac=detail] without [ids], and
    - with a search word - [ac=detail] when the search finds nothing. *)
Theorem detail_without_target_is_code_0 (w : World) (request : Request)
    (params : Params) (embyConfig : EmbyConfigT) :
  searchParams request !! "ac" = Some "detail" →
  ready w params embyConfig →
  (Js.truthy (searchParams request !! "wd") = false →
   Js.truthy (searchParams request !! "ids") = false →
   GET w request params = json (VodList 0 "缺少视频ID" 1 0 0 0 []))
  ∧ (Js.truthy (searchParams request !! "wd") = true →
     getItems (newEmbyClient w embyConfig)
       {| searchTerm := Some (Js.str (searchParams request !! "wd"));
          IncludeItemTypes := "Movie,Series";
          Recursive := true;
          Fields := "Overview,ProductionYear";
          Limit := 1 |} = inr [] →
     GET w request params = json (VodList 0 "未找到该视频" 1 0 0 0 [])).
Proof.
  intros Hac Hready.
  assert (supported (searchParams request !! "ac") = true) as Hsup
    by (rewrite Hac; reflexivity).
  rewrite (GET_ready _ _ _ _ Hsup Hready). simpl. rewrite Hac. split.
  - intros -> ->. reflexivity.
  - intros -> Hnone. rewrite bool_decide_eq_true_2 by done.
    unfold handleDetailBySearch, bind. rewrite Hnone. reflexivity.
Qed.

Lemma detail_without_target_is_code_0_witness :
  GET (CmsSample2.world_with (inr Sample.store) (inr []) [])
      (CmsSample.request [("ac", "detail")]) (CmsSample.params "s3cret")
    = json (VodList 0 "缺少视频ID" 1 0 0 0 [])
  ∧ GET (CmsSample2.world_with (inr Sample.store) (inr []) [])
        (CmsSample.request [("ac", "detail"); ("wd", "heat")]) (CmsSample.params "s3cret")
    = json (VodList 0 "未找到该视频" 1 0 0 0 []).
Proof.
  assert (ready (CmsSample2.world_with (inr Sample.store) (inr []) [])
                (CmsSample.params "s3cret") Sample.embyConfig) as Hready.
  { split; [by split|]. split; [|reflexivity]. eexists. by repeat split. }
  split.
  - destruct (detail_without_target_is_code_0
                (CmsSample2.world_with (inr Sample.store) (inr []) [])
                (CmsSample.request [("ac", "detail")]) (CmsSample.params "s3cret")
                Sample.embyConfig eq_refl Hready) as [Hid _].
    by apply Hid.
  - destruct (detail_without_target_is_code_0
                (CmsSample2.world_with (inr Sample.store) (inr []) [])
                (CmsSample.request [("ac", "detail"); ("wd", "heat")])
                (CmsSample.params "s3cret") Sample.embyConfig eq_refl Hready)
      as [_ Hwd].
    by apply Hwd.
Defined.

End CmsErrors.

Section CmsRouting.
Import CmsProxy CmsSpec CmsView CmsReady.

(** X18. A non-empty search word decides the route: the answer is the same
    as that to the request without its [ids] parameter. *)
Theorem wd_overrides_ids (w : World) (request : Request) (params : Params) :
  Js.truthy (searchParams request !! "wd") = true →
  GET w request params = GET w (without_ids request) params.
Proof.
  intros Hwd. unfold GET.
  change (searchParams (without_ids request)) with (delete "ids" (searchParams request)).
  rewrite !lookup_delete_ne by done. rewrite Hwd. reflexivity.
Qed.

Lemma wd_overrides_ids_witness :
  GET (CmsSample.world (Some "s3cret") [])
      (CmsSample.request [("ac", "videolist"); ("wd", "heat"); ("ids", "m1")])
      (CmsSample.params "s3cret")
  = GET (CmsSample.world (Some "s3cret") [])
        (without_ids
           (CmsSample.request [("ac", "videolist"); ("wd", "heat"); ("ids", "m1")]))
        (CmsSample.params "s3cret").
Proof.
  apply (wd_overrides_ids (CmsSample.world (Some "s3cret") [])
           (CmsSample.request [("ac", "videolist"); ("wd", "heat"); ("ids", "m1")])
           (CmsSample.params "s3cret")).
  reflexivity.
Defined.

(** X19. Without search word, a non-empty [ids] selects the detail answer
    for every supported [ac], [videolist] and [list] included. *)
Theorem ids_select_detail (w : World) (request : Request) (params : Params)
    (embyConfig : EmbyConfigT) :
  supported (searchParams request !! "ac") = true →
  ready w params embyConfig →
  Js.truthy (searchParams request !! "wd") = false →
  Js.truthy (searchParams request !! "ids") = true →
  GET w request params
  = answer (handleDetail w (newEmbyClient w embyConfig)
              (Js.str (searchParams request !! "ids")) (token params) request).
Proof.
  intros Hac Hready Hwd Hids. rewrite (GET_ready _ _ _ _ Hac Hready). simpl.
  rewrite Hwd, Hids. reflexivity.
Qed.

Lemma ids_select_detail_witness :
  let w := CmsSample.world (Some "s3cret") [] in
  let request := CmsSample.request [("ac", "list"); ("ids", "m1")] in
  GET w request (CmsSample.params "s3cret")
  = answer (handleDetail w (newEmbyClient w Sample.embyConfig) "m1" "s3cret" request).
Proof.
  intros w request.
  apply (ids_select_detail w request (CmsSample.params "s3cret") Sample.embyConfig);
    try reflexivity.
  split; [by split|]. split; [|reflexivity]. eexists. by repeat split.
Defined.

(** X20. A search answer has code 1 and one record per item the client
    returned, in the same order and with the item's id and name - also when
    there is no item at all - and no record of a search carries a play URL.
    The client is asked for movies and series, at most 100, with the query
    as search term, or without search term when the query is empty. *)
Theorem search_records (client : EmbyClient) (query : string) (items : list Item) :
  getItems client
    {| searchTerm := if bool_decide (query = "") then None else Some query;
       IncludeItemTypes := "Movie,Series";
       Recursive := true;
       Fields := "Overview,ProductionYear";
       Limit := 100 |} = inr items →
  ∃ l, handleSearch client query
         = inr (json (VodList 1 "数据列表" 1 1
                        (Z.of_nat (length items)) (Z.of_nat (length items)) l))
       ∧ map vod_id l = map Id items
       ∧ map vod_name l = map Name items
       ∧ Forall (λ record, vod_play_url record = None ∧ vod_play_from record = None) l.
Proof.
  intros Hitems. unfold handleSearch, bind. simpl.
  replace (if negb (bool_decide (query = "")) then Some query else None)
    with (if bool_decide (query = "") then None else Some query)
    by (by destruct (bool_decide (query = ""))).
  rewrite Hitems. eexists. split; [|split; [|split]].
  - rewrite length_map. reflexivity.
  - rewrite map_map. reflexivity.
  - rewrite map_map. reflexivity.
  - apply Forall_forall. intros record Hin.
    apply list_elem_of_fmap in Hin as (item & -> & _). done.
Qed.

Lemma search_records_witness :
  ∃ l, handleSearch (CmsSample.client []) ""
         = inr (json (VodList 1 "数据列表" 1 1 2 2 l))
       ∧ map vod_id l = ["m1"; "s1"]
       ∧ map vod_name l = ["Heat"; "Dark"]
       ∧ Forall (λ record, vod_play_url record = None ∧ vod_play_from record = None) l.
Proof.
  apply (search_records (CmsSample.client []) "" [CmsSample.movie; CmsSample.series]).
  reflexivity.
Defined.

(** X21. The detail answer for an item that is neither a movie nor a
    series, or for a series without episodes, has an empty [vod_play_url];
    everything that is not a movie is labelled as a series. *)
Theorem detail_without_play_url (w : World) (client : EmbyClient)
    (itemId token : string) (request : Request) (item : Item) :
  getItem client itemId = inr item →
  (Type_ item ≠ "Movie" ∧ Type_ item ≠ "Series")
  ∨ (Type_ item = "Series" ∧ getEpisodes client itemId = inr []) →
  ∃ record,
    handleDetail w client itemId token request
      = inr (json (VodList 1 "数据列表" 1 1 1 1 [record]))
    ∧ vod_id record = Id item
    ∧ vod_play_url record = Some ""
    ∧ vod_play_from record = Some "Emby"
    ∧ vod_remarks record = "剧集"
    ∧ type_name record = "电视剧".
Proof.
  intros Hitem Hkind. unfold handleDetail, bind. rewrite Hitem.
  unfold remarks, typeName.
  destruct Hkind as [[Hm Hs] | [Hs Hep]].
  - rewrite !(bool_decide_eq_false_2 _ Hm), (bool_decide_eq_false_2 _ Hs).
    eexists. by repeat split.
  - rewrite Hs, Hep. simpl. eexists. by repeat split.
Qed.

Lemma detail_without_play_url_witness :
  let w := CmsSample2.world_with (inr Sample.store) (inr []) [] in
  (∃ record,
     handleDetail w (newEmbyClient w Sample.embyConfig) "b1" "s3cret"
                  (CmsSample.request [])
       = inr (json (VodList 1 "数据列表" 1 1 1 1 [record]))
     ∧ vod_id record = "b1"
     ∧ vod_play_url record = Some ""
     ∧ vod_play_from record = Some "Emby"
     ∧ vod_remarks record = "剧集"
     ∧ type_name record = "电视剧")
  ∧ (∃ record,
       handleDetail w (newEmbyClient w Sample.embyConfig) "s1" "s3cret"
                    (CmsSample.request [])
         = inr (json (VodList 1 "数据列表" 1 1 1 1 [record]))
       ∧ vod_id record = "s1"
       ∧ vod_play_url record = Some ""
       ∧ vod_play_from record = Some "Emby"
       ∧ vod_remarks record = "剧集"
       ∧ type_name record = "电视剧").
Proof.
  intros w. split.
  - apply (detail_without_play_url w (newEmbyClient w Sample.embyConfig) "b1" "s3cret"
             (CmsSample.request [])
             {| Id := "b1"; Name := "Box"; Type_ := "BoxSet";
                ProductionYear := None; Overview := None |});
      [reflexivity|]. left. split; discriminate.
  - apply (detail_without_play_url w (newEmbyClient w Sample.embyConfig) "s1" "s3cret"
             (CmsSample.request []) CmsSample.series); [reflexivity|].
    right. split; reflexivity.
Defined.

(** X22. With [SITE_BASE] set to a non-empty value, the detail answer does
    not depend on the headers of the request: the links it holds start with
    that value, whatever [Host] the client sent. *)
Theorem site_base_fixes_links (w : World) (client : EmbyClient)
    (itemId token : string) (request request' : Request) :
  Js.truthy (SITE_BASE w) = true →
  baseUrl w request = Js.str (SITE_BASE w)
  ∧ handleDetail w client itemId token request
    = handleDetail w client itemId token request'.
Proof.
  intros Hsite.
  assert (∀ r, baseUrl w r = Js.str (SITE_BASE w)) as Hbase.
  { intros r. unfold baseUrl.
    destruct (truthy_Some _ Hsite) as (v & Hv & Hne & ->). rewrite Hv. simpl.
    by rewrite bool_decide_eq_false_2. }
  split; [apply Hbase|]. unfold handleDetail. by rewrite !Hbase.
Qed.

Lemma baseUrl_no_host (w : World) (request : Request) :
  Js.truthy (SITE_BASE w) = false →
  req_headers request !! "host" = None →
  req_headers request !! "x-forwarded-host" = None →
  baseUrl w request
  = Js.or_str (req_headers request !! "x-forwarded-proto") "https" +:+ "://null".
Proof.
  intros Hsite Hh Hx. unfold baseUrl. rewrite Hh, Hx. simpl.
  destruct (SITE_BASE w) as [v|]; [|reflexivity].
  simpl in *. by destruct (bool_decide (v = "")).
Qed.

(** X23. Without [SITE_BASE] and without [Host] and [X-Forwarded-Host]
    headers, the link of a movie is built on the host ["null"], under the
    forwarded protocol, or [https] when none is given. *)
Theorem links_without_host (w : World) (client : EmbyClient)
    (itemId token : string) (request : Request) (item : Item) :
  getItem client itemId = inr item →
  Type_ item = "Movie" →
  Js.truthy (SITE_BASE w) = false →
  req_headers request !! "host" = None →
  req_headers request !! "x-forwarded-host" = None →
  ∃ record,
    handleDetail w client itemId token request
      = inr (json (VodList 1 "数据列表" 1 1 1 1 [record]))
    ∧ vod_play_url record =
        Some ("正片" +:+ "$" +:+
              proxyUrl (Js.or_str (req_headers request !! "x-forwarded-proto") "https"
                          +:+ "://null")
                       token (Id item)).
Proof.
  intros Hitem Hmovie Hsite Hh Hx. unfold handleDetail, bind. rewrite Hitem.
  rewrite bool_decide_eq_true_2 by exact Hmovie.
  rewrite (baseUrl_no_host w request Hsite Hh Hx).
  eexists. split; reflexivity.
Qed.

End CmsRouting.

Section CmsLinks.
Import CmsProxy CmsSpec CmsView CmsReady.

Lemma site_base_fixes_links_witness :
  let w := CmsSample2.world_at (Some "https://media.example.net") in
  baseUrl w (CmsSample2.request_with [] [("host", "evil.example.org")])
    = "https://media.example.net"
  ∧ handleDetail w (CmsSample.client []) "m1" "s3cret"
                 (CmsSample2.request_with [] [("host", "evil.example.org")])
    = handleDetail w (CmsSample.client []) "m1" "s3cret"
                   (CmsSample2.request_with [] []).
Proof.
  intros w.
  apply (site_base_fixes_links w (CmsSample.client []) "m1" "s3cret"
           (CmsSample2.request_with [] [("host", "evil.example.org")])
           (CmsSample2.request_with [] [])).
  reflexivity.
Defined.

Lemma links_without_host_witness :
  ∃ record,
    handleDetail (CmsSample2.world_at None) (CmsSample.client []) "m1" "s3cret"
                 (CmsSample2.request_with [] [])
      = inr (json (VodList 1 "数据列表" 1 1 1 1 [record]))
    ∧ vod_play_url record =
        Some "正片$https://null/api/emby/play/s3cret/video.mp4?itemId=m1".
Proof.
  apply (links_without_host (CmsSample2.world_at None) (CmsSample.client [])
           "m1" "s3cret" (CmsSample2.request_with [] []) CmsSample.movie);
    reflexivity.
Defined.

(** X24. The play list of a series is the join by ["#"] of one segment per
    episode: the segments are a rearrangement of the episodes' entries, none
    dropped and none repeated. *)
Theorem series_segments (base token : string) (allEpisodes : list Episode) :
  ∃ segments,
    seriesPlayUrl base token allEpisodes = Js.join "#" segments
    ∧ segments ≡ₚ map (playEntry base token) allEpisodes
    ∧ length segments = length allEpisodes.
Proof.
  exists (map (playEntry base token) (Js.sort compareEpisodes allEpisodes)).
  split; [reflexivity|]. split.
  - apply Permutation_map, sort_Permutation.
  - rewrite length_map. apply Permutation_length, sort_Permutation.
Qed.

End CmsLinks.

Section SortOrder.
Context {A : Type} (cmp : A → A → Z).

Lemma sort_ordered_id (l : list A) :
  Sorted (λ a b, cmp a b <= 0) l → Js.sort cmp l = l.
Proof.
  induction 1 as [|x l Hl IH Hhd]; simpl; [reflexivity|].
  rewrite IH. destruct Hhd as [|y l' Hxy]; simpl; [reflexivity|].
  by rewrite bool_decide_eq_true_2.
Qed.

End SortOrder.

Section CmsOrder.
Import CmsProxy CmsSpec CmsView.

(** X25. Episodes that arrive with no episode comparing greater than its
    successor keep their order: the sort returns the list as it came. *)
Theorem ordered_episodes_unchanged (allEpisodes : list Episode) :
  Sorted (λ a b, compareEpisodes a b <= 0) allEpisodes →
  Js.sort compareEpisodes allEpisodes = allEpisodes.
Proof. apply sort_ordered_id. Qed.

Lemma ordered_episodes_unchanged_witness :
  Js.sort compareEpisodes
    [CmsSample.episode "a" (Some 1) (Some 1); CmsSample.episode "b" (Some 1) (Some 1);
     CmsSample.episode "c" (Some 2) None]
  = [CmsSample.episode "a" (Some 1) (Some 1); CmsSample.episode "b" (Some 1) (Some 1);
     CmsSample.episode "c" (Some 2) None].
Proof.
  apply (ordered_episodes_unchanged
           [CmsSample.episode "a" (Some 1) (Some 1);
            CmsSample.episode "b" (Some 1) (Some 1);
            CmsSample.episode "c" (Some 2) None]).
  repeat constructor; by vm_compute.
Defined.

Lemma sort_episodes_sorted_witness :
  StronglySorted key_le (Js.sort compareEpisodes CmsSample.three).
Proof.
  apply (sort_episodes_sorted CmsSample.three).
  apply seasons_present_agree.
  repeat constructor; by eexists.
Defined.

End CmsOrder.

(** ** From the catalogue to the stream *)

Section CrossRoute.

Lemma rejected_code (w : CmsProxy.World) (request : CmsProxy.Request)
    (params : CmsProxy.Params) :
  CmsProxy.supported (CmsProxy.searchParams request !! "ac") = true →
  CmsView.code (CmsProxy.body (CmsProxy.GET w request params)) ≠ 401 →
  CmsView.accepted w params.
Proof.
  intros Hac Hcode. unfold CmsView.accepted.
  destruct (Js.truthy (CmsProxy.TVBOX_SUBSCRIBE_TOKEN w)) eqn:Ht.
  2:{ exfalso. apply Hcode. rewrite GET_rejected; [reflexivity | done | by left]. }
  split; [reflexivity|].
  destruct (decide (Some (CmsProxy.token params) = CmsProxy.TVBOX_SUBSCRIBE_TOKEN w))
    as [Heq|Hne]; [exact Heq|].
  exfalso. apply Hcode. rewrite GET_rejected; [reflexivity | done | by right].
Qed.

(** X26. A token with which the CMS proxy answers anything but code 401 also
    opens the play proxy: with the same secret configured, a request to the
    play route under that token is never answered 401, with or without
    session.  So the links of a detail answer are not refused. *)
Theorem catalog_token_opens_stream (cw : CmsProxy.World) (creq : CmsProxy.Request)
    (pw : Play.World) (preq : Play.Request) (token filename : string)
    (s : Play.State) :
  Play.TVBOX_SUBSCRIBE_TOKEN pw = CmsProxy.TVBOX_SUBSCRIBE_TOKEN cw →
  CmsProxy.supported (CmsProxy.searchParams creq !! "ac") = true →
  CmsView.code (CmsProxy.body (CmsProxy.GET cw creq {| CmsProxy.token := token |}))
    ≠ 401 →
  ∃ r s',
    Play.GET pw preq {| Play.token := token; Play.filename := filename |} s = (inr r, s')
    ∧ Play.status r ≠ 401.
Proof.
  intros Hsame Hac Hcode.
  destruct (rejected_code cw creq _ Hac Hcode) as [Ht Heq]. simpl in Heq.
  apply GET_authorized_status. apply orb_true_iff. left.
  unfold Play.hasValidToken. simpl. rewrite Hsame, Ht.
  by rewrite bool_decide_eq_true_2.
Qed.

Lemma catalog_token_opens_stream_witness :
  ∃ r s',
    Play.GET (Sample.play_world 0 Sample.store (Some "s3cret"))
             (Sample.play_request [("itemId", "m1")] [])
             {| Play.token := "s3cret"; Play.filename := "video.mp4" |} Sample.cold
      = (inr r, s')
    ∧ Play.status r ≠ 401.
Proof.
  apply (catalog_token_opens_stream
           (CmsSample.world (Some "s3cret") [])
           (CmsSample.request [("ac", "detail"); ("ids", "m1")])
           (Sample.play_world 0 Sample.store (Some "s3cret"))
           (Sample.play_request [("itemId", "m1")] []) "s3cret" "video.mp4" Sample.cold).
  - reflexivity.
  - reflexivity.
  - vm_compute. discriminate.
Defined.

End CrossRoute.

(** ** Tokens and years in the answers *)

Section Encoding.
Import CmsProxy CmsView.

Lemma chars_app (a b : string) : chars (a +:+ b) = chars a ++ chars b.
Proof. induction a as [|c a IH]; simpl; [reflexivity|]. by rewrite IH. Qed.

Lemma percent_encode_chars (c : ascii) :
  forallb (λ x, Js.unreserved x || bool_decide (x = "%"%char))
          (chars (Js.percent_encode c)) = true.
Proof. destruct c as [[] [] [] [] [] [] [] []]; vm_compute; reflexivity. Qed.

Lemma encode_chars (s : string) (x : ascii) :
  x ∈ chars (Js.encodeURIComponent s) → Js.unreserved x = true ∨ x = "%"%char.
Proof.
  induction s as [|c s IH]; simpl; [by intros ?%elem_of_nil|].
  rewrite chars_app. intros [Hin|Hin]%elem_of_app; [|by apply IH].
  destruct (Js.unreserved c) eqn:Hc.
  - simpl in Hin. apply list_elem_of_singleton in Hin as ->. by left.
  - pose proof (percent_encode_chars c) as Hall.
    rewrite forallb_forall in Hall. apply list_elem_of_In, Hall in Hin.
    apply orb_true_iff in Hin as [?|?%bool_decide_eq_true]; auto.
Qed.

(** X27. The token segment of a proxy link is made of unreserved characters
    and ["%"] only, so it holds none of ["#"], ["$"], ["/"] and ["?"], the
    separators of the play list and of the link; a token of unreserved
    characters alone stands in the link as it is. *)
Theorem token_in_link (token : string) :
  (∀ x, x ∈ chars (Js.encodeURIComponent token) →
        Js.unreserved x = true ∨ x = "%"%char)
  ∧ (∀ x, x ∈ ["#"; "$"; "/"; "?"]%char → x ∉ chars (Js.encodeURIComponent token))
  ∧ (Forall (λ x, Js.unreserved x = true) (chars token) →
     ∀ base itemId,
       proxyUrl base token itemId
       = base +:+ "/api/emby/play/" +:+ token +:+ "/video.mp4?itemId=" +:+ itemId).
Proof.
  split; [intros x; apply encode_chars|]. split.
  - intros x Hx Hin. apply encode_chars in Hin.
    repeat (apply elem_of_cons in Hx as [->|Hx]; [by destruct Hin|]).
    by apply elem_of_nil in Hx.
  - intros Hall base itemId. unfold proxyUrl. f_equal. f_equal.
    assert (Js.encodeURIComponent token = token) as ->; [|reflexivity].
    induction token as [|c t IH]; simpl in *; [reflexivity|].
    apply Forall_cons in Hall as [-> Hall]. simpl. by rewrite IH.
Qed.

Lemma token_in_link_witness :
  (∀ x, x ∈ ["#"; "$"; "/"; "?"]%char →
        x ∉ chars (Js.encodeURIComponent "a#b$c/d?e"))
  ∧ proxyUrl "https://tv.example.org" "s3cret-Token_1" "42"
    = "https://tv.example.org/api/emby/play/s3cret-Token_1/video.mp4?itemId=42".
Proof.
  split.
  - apply (token_in_link "a#b$c/d?e").
  - apply (token_in_link "s3cret-Token_1").
    repeat constructor.
Defined.

Lemma pretty_N_go_length (x : N) (s : string) :
  (String.length s ≤ String.length (pretty_N_go x s))%nat.
Proof.
  revert s. induction (N.lt_wf_0 x) as [x _ IH]. intros s.
  destruct (decide (x = 0)%N) as [->|Hx]; [by rewrite pretty_N_go_0|].
  rewrite pretty_N_go_step by lia.
  etrans; [|apply IH; apply N.div_lt; lia]. simpl. lia.
Qed.

Lemma pretty_N_nonempty (x : N) : pretty x ≠ "".
Proof.
  unfold pretty, pretty_N. case_decide as Hx; [done|].
  rewrite pretty_N_go_step by lia. intros Heq.
  pose proof (pretty_N_go_length (x `div` 10)
                (String (pretty_N_char (x `mod` 10)) "")) as Hlen.
  rewrite Heq in Hlen. simpl in Hlen. lia.
Qed.

Lemma Number_toString_nonempty (z : Z) : Js.Number_toString z ≠ "".
Proof.
  unfold Js.Number_toString, pretty, pretty_Z. destruct z as [|p|p]; [done| |done].
  apply (pretty_N_nonempty (Npos p)).
Qed.

(** X28. [vod_year] is the production year in decimal digits, and the
    empty string exactly when the item has no production year: a year 0 is
    written ["0"]. *)
Theorem year_text (item : Item) :
  (∀ y, ProductionYear item = Some y → year item = Js.Number_toString y)
  ∧ (year item = "" ↔ ProductionYear item = None).
Proof.
  unfold year. destruct (ProductionYear item) as [y|]; simpl.
  - pose proof (Number_toString_nonempty y) as Hne.
    rewrite bool_decide_eq_false_2 by done. split; [by intros ? [= <-]|].
    split; [by intros ?|discriminate].
  - split; [discriminate|]. done.
Qed.

Lemma year_text_witness :
  year CmsSample.movie = "1995"
  ∧ year {| Id := "z"; Name := "Zero"; Type_ := "Movie";
            ProductionYear := Some 0; Overview := None |} = "0".
Proof.
  split.
  - destruct (year_text CmsSample.movie) as [Hyear _].
    exact (Hyear 1995 eq_refl).
  - destruct (year_text {| Id := "z"; Name := "Zero"; Type_ := "Movie";
                           ProductionYear := Some 0; Overview := None |})
      as [Hyear _].
    exact (Hyear 0 eq_refl).
Defined.

End Encoding.
